(** * FullHistoryMerger: a shallow embedding of
      Utilities/Mergers/src/FullHistoryMerger.cxx

    The merger keeps one serialized "first object" (the template), a cache of
    deserialized objects keyed by the source of each update, and five
    counters.  [run] ingests the updates of one invocation and, on a timer
    tick, merges, publishes and applies the retention policy.

    Conventions of the embedding:
    - member functions are computations in a small state + exception + output
      monad [M]; a C++ exception leaves the members as they were when it was
      thrown, which is what [Raised] records;
    - what is sent to the DataAllocator and to the monitoring collector is the
      output of the computation (a list of [Event]); LOG lines are not modelled;
    - the counters are C++ integers declared in the header; they are modelled
      as [Z], i.e. the development is about runs that stay below the width of
      those integers. *)

From Stdlib Require Import ZArith Lia.
From stdpp Require Import gmap strings list fin_maps pretty.

Local Open Scope Z_scope.

(** ** Data model *)

(** MergerConfig.h is not under src/; the code reads
    [mConfig.mergedObjectTimespan.value] and [.param].
    Modelled from the spec: the retention policy is one of LastDifference and
    NCycles, and the parameter is the cycle count of NCycles. *)
Inductive MergedObjectTimespan := LastDifference | NCycles.

Record MergerConfig := {
  mergedObjectTimespan_value : MergedObjectTimespan;
  mergedObjectTimespan_param : Z
}.

(** The three fields of o2::header::DataHeader that [updateCache] reads. *)
Record DataHeader := {
  dataOrigin : string;
  dataDescription : string;
  subSpecification : N
}.

(** monitoring::DerivedMetricMode, as far as [publish] uses it. *)
Inductive DerivedMetricMode := NONE | RATE.

(** The exceptions that can leave the member functions:
    - [DecodeFailure]: thrown by extractObjectFrom;
    - [BadVariantAccess]: std::get on a variant holding another alternative;
    - [LengthMismatch]: the collection merge refused its arguments;
    - [RuntimeError]: the std::runtime_error of [publish]. *)
Inductive Exn :=
| DecodeFailure
| BadVariantAccess
| LengthMismatch
| RuntimeError (what : string).

Section Merger.

(** ROOT's TObject, o2::mergers::MergeInterface and framework::InputSpec are
    opaque to the merger. *)
Variables TObject MergeInterface InputSpec : Type.

(** algorithm::merge on two TObject pointers and MergeInterface::merge
    update their target in place; each is given by the new value of the
    target. *)
Variable mergeTObject : TObject -> TObject -> TObject.
Variable mergeInterface : MergeInterface -> MergeInterface -> MergeInterface.

(** framework::DataRef: the spec, the header and the payload of a message. *)
Record DataRef := {
  spec : InputSpec;
  header : DataHeader;
  payload : list Byte.byte
}.

(** The alternatives of ObjectStore other than std::monostate. *)
Inductive Object :=
| TObjectPtr (o : TObject)
| MergeInterfacePtr (m : MergeInterface)
| VectorOfTObjectPtrs (v : list TObject).

(** ObjectStore: [None] is std::monostate. *)
Definition ObjectStore := option Object.

(** object_store_helpers::extractObjectFrom is declared outside src/ and is
    a parameter.  Modelled from the spec: a payload decodes to exactly one of
    the three kinds (the assert of mergeCache says it never yields
    monostate), and a payload that cannot be decoded is a DecodeFailure
    raised to the caller, here the result [None]. *)
Variable extractObjectFrom : DataRef -> option Object.

(** object_store_helpers::snapshot is declared outside src/ and is a
    parameter: whether the handoff to the DataAllocator succeeds.
    Modelled from the spec: the object is emitted exactly when it does. *)
Variable snapshot : N -> Object -> bool.

(** Modelled from the spec: algorithm::merge on two collections is not under
    src/.  The spec has it combine the two sequences elementwise by
    position and require equal lengths; [None] is a refused merge. *)
Fixpoint mergeCollection (target other : list TObject) : option (list TObject) :=
  match target, other with
  | [], [] => Some []
  | t :: target', o :: other' =>
      match mergeCollection target' other' with
      | Some r => Some (mergeTObject t o :: r)
      | None => None
      end
  | _, _ => None
  end.

(** What leaves the merger: an object handed to the DataAllocator, or a
    metric sent to the monitoring collector. *)
Inductive Event :=
| Snapshot (subSpec : N) (o : Object)
| Metric (name : string) (value : Z) (mode : DerivedMetricMode).

(** The members of FullHistoryMerger.  [mFirstObjectSerialized] pairs the
    source of the template with the stored copy of its message; [None] is
    the DataRef of three null pointers. *)
Record State := {
  mConfig : MergerConfig;
  mSubSpec : N;
  mFirstObjectSerialized : string * option DataRef;
  mMergedObject : ObjectStore;
  mCache : gmap string Object;
  mCyclesSinceReset : Z;
  mTotalObjectsMerged : Z;
  mObjectsMerged : Z;
  mTotalUpdatesReceived : Z;
  mUpdatesReceived : Z
}.

Definition set_mFirstObjectSerialized (v : string * option DataRef) (s : State) : State :=
  {| mConfig := mConfig s; mSubSpec := mSubSpec s;
     mFirstObjectSerialized := v;
     mMergedObject := mMergedObject s; mCache := mCache s;
     mCyclesSinceReset := mCyclesSinceReset s;
     mTotalObjectsMerged := mTotalObjectsMerged s;
     mObjectsMerged := mObjectsMerged s;
     mTotalUpdatesReceived := mTotalUpdatesReceived s;
     mUpdatesReceived := mUpdatesReceived s |}.

Definition set_mMergedObject (v : ObjectStore) (s : State) : State :=
  {| mConfig := mConfig s; mSubSpec := mSubSpec s;
     mFirstObjectSerialized := mFirstObjectSerialized s;
     mMergedObject := v; mCache := mCache s;
     mCyclesSinceReset := mCyclesSinceReset s;
     mTotalObjectsMerged := mTotalObjectsMerged s;
     mObjectsMerged := mObjectsMerged s;
     mTotalUpdatesReceived := mTotalUpdatesReceived s;
     mUpdatesReceived := mUpdatesReceived s |}.

Definition set_mCache (v : gmap string Object) (s : State) : State :=
  {| mConfig := mConfig s; mSubSpec := mSubSpec s;
     mFirstObjectSerialized := mFirstObjectSerialized s;
     mMergedObject := mMergedObject s; mCache := v;
     mCyclesSinceReset := mCyclesSinceReset s;
     mTotalObjectsMerged := mTotalObjectsMerged s;
     mObjectsMerged := mObjectsMerged s;
     mTotalUpdatesReceived := mTotalUpdatesReceived s;
     mUpdatesReceived := mUpdatesReceived s |}.

Definition set_mCyclesSinceReset (v : Z) (s : State) : State :=
  {| mConfig := mConfig s; mSubSpec := mSubSpec s;
     mFirstObjectSerialized := mFirstObjectSerialized s;
     mMergedObject := mMergedObject s; mCache := mCache s;
     mCyclesSinceReset := v;
     mTotalObjectsMerged := mTotalObjectsMerged s;
     mObjectsMerged := mObjectsMerged s;
     mTotalUpdatesReceived := mTotalUpdatesReceived s;
     mUpdatesReceived := mUpdatesReceived s |}.

Definition set_mObjectsMerged (v : Z) (s : State) : State :=
  {| mConfig := mConfig s; mSubSpec := mSubSpec s;
     mFirstObjectSerialized := mFirstObjectSerialized s;
     mMergedObject := mMergedObject s; mCache := mCache s;
     mCyclesSinceReset := mCyclesSinceReset s;
     mTotalObjectsMerged := mTotalObjectsMerged s;
     mObjectsMerged := v;
     mTotalUpdatesReceived := mTotalUpdatesReceived s;
     mUpdatesReceived := mUpdatesReceived s |}.

Definition set_mUpdatesReceived (v : Z) (s : State) : State :=
  {| mConfig := mConfig s; mSubSpec := mSubSpec s;
     mFirstObjectSerialized := mFirstObjectSerialized s;
     mMergedObject := mMergedObject s; mCache := mCache s;
     mCyclesSinceReset := mCyclesSinceReset s;
     mTotalObjectsMerged := mTotalObjectsMerged s;
     mObjectsMerged := mObjectsMerged s;
     mTotalUpdatesReceived := mTotalUpdatesReceived s;
     mUpdatesReceived := v |}.

(** The two "total" counters are only written together, by [publish]. *)
Definition set_totals (objects updates : Z) (s : State) : State :=
  {| mConfig := mConfig s; mSubSpec := mSubSpec s;
     mFirstObjectSerialized := mFirstObjectSerialized s;
     mMergedObject := mMergedObject s; mCache := mCache s;
     mCyclesSinceReset := mCyclesSinceReset s;
     mTotalObjectsMerged := objects;
     mObjectsMerged := mObjectsMerged s;
     mTotalUpdatesReceived := updates;
     mUpdatesReceived := mUpdatesReceived s |}.

(** The members as the constructor (with the default member initialisers)
    and as [clear()] leave them. *)
Definition initState (config : MergerConfig) (subSpec : N) : State :=
  {| mConfig := config; mSubSpec := subSpec;
     mFirstObjectSerialized := (""%string, None);
     mMergedObject := None; mCache := ∅;
     mCyclesSinceReset := 0;
     mTotalObjectsMerged := 0; mObjectsMerged := 0;
     mTotalUpdatesReceived := 0; mUpdatesReceived := 0 |}.

(** ** The monad of member functions *)

Inductive Res (A : Type) :=
| Done (a : A) (s : State) (out : list Event)
| Raised (e : Exn) (s : State) (out : list Event).
Arguments Done {A}.
Arguments Raised {A}.

Definition M (A : Type) : Type := State -> Res A.

#[global] Instance M_ret : MRet M := λ A a s, Done a s [].

(** The output of a call that follows one whose output was [out]. *)
Definition prepend {A} (out : list Event) (r : Res A) : Res A :=
  match r with
  | Done a s out' => Done a s (out ++ out')
  | Raised e s out' => Raised e s (out ++ out')
  end.

#[global] Instance M_bind : MBind M := λ A B f m s,
  match m s with
  | Done a s1 out1 => prepend out1 (f a s1)
  | Raised e s1 out1 => Raised e s1 out1
  end.

Definition get : M State := λ s, Done s s [].
Definition modify (f : State -> State) : M unit := λ s, Done tt (f s) [].
Definition throw {A} (e : Exn) : M A := λ s, Raised e s [].
Definition emit (ev : Event) : M unit := λ s, Done tt s [ev].

(** A range-based for loop over [l]. *)
Fixpoint forEach {A} (l : list A) (body : A -> M unit) : M unit :=
  match l with
  | [] => mret tt
  | x :: l' => body x;; forEach l' body
  end.

(** The members and the output after a call, however it ended. *)
Definition stateOf {A} (r : Res A) : State :=
  match r with Done _ s _ => s | Raised _ s _ => s end.
Definition outputOf {A} (r : Res A) : list Event :=
  match r with Done _ _ out => out | Raised _ _ out => out end.
Definition returned {A} (r : Res A) : bool :=
  match r with Done _ _ _ => true | Raised _ _ _ => false end.

(** ** Member functions *)

(** FullHistoryMerger::clear *)
Definition clear : M unit :=
  modify (λ s, initState (mConfig s) (mSubSpec s)).

(** The sourceID of updateCache: origin/description/subSpecification. *)
Definition sourceID (ref : DataRef) : string :=
  dataOrigin (header ref) +:+ "/" +:+ dataDescription (header ref) +:+ "/"
    +:+ pretty (subSpecification (header ref)).

(** FullHistoryMerger::updateCache.  The first branch copies the message
    into the template slot without decoding it; the second one decodes it
    and, the right-hand side of the assignment being evaluated first,
    writes the cache only when decoding succeeded. *)
Definition updateCache (ref : DataRef) : M unit :=
  s ← get;
  if bool_decide ((mFirstObjectSerialized s).1 = ""%string)
     || bool_decide ((mFirstObjectSerialized s).1 = sourceID ref)
  then modify (set_mFirstObjectSerialized (sourceID ref, Some ref))
  else
    match extractObjectFrom ref with
    | Some o => modify (λ s, set_mCache (<[sourceID ref := o]> (mCache s)) s)
    | None => throw DecodeFailure
    end.

Definition addObjectsMerged (n : Z) : M unit :=
  modify (λ s, set_mObjectsMerged (mObjectsMerged s + n) s).

(** The bodies of the three loops of mergeCache.  [target] shares its
    pointee with [mMergedObject], so a merge into it is a write to
    [mMergedObject]; std::get on an entry of another kind throws. *)
Definition mergeTObjectEntry (entry : string * Object) : M unit :=
  s ← get;
  match mMergedObject s, entry.2 with
  | Some (TObjectPtr target), TObjectPtr other =>
      modify (set_mMergedObject (Some (TObjectPtr (mergeTObject target other))));;
      addObjectsMerged 1
  | _, _ => throw BadVariantAccess
  end.

Definition mergeInterfaceEntry (entry : string * Object) : M unit :=
  s ← get;
  match mMergedObject s, entry.2 with
  | Some (MergeInterfacePtr target), MergeInterfacePtr other =>
      modify (set_mMergedObject (Some (MergeInterfacePtr (mergeInterface target other))));;
      addObjectsMerged 1
  | _, _ => throw BadVariantAccess
  end.

Definition mergeVectorEntry (entry : string * Object) : M unit :=
  s ← get;
  match mMergedObject s, entry.2 with
  | Some (VectorOfTObjectPtrs target), VectorOfTObjectPtrs other =>
      match mergeCollection target other with
      | Some target' =>
          modify (set_mMergedObject (Some (VectorOfTObjectPtrs target')));;
          addObjectsMerged (Z.of_nat (length target'))
      | None => throw LengthMismatch
      end
  | _, _ => throw BadVariantAccess
  end.

(** FullHistoryMerger::mergeCache.  The cache is an unordered_map; its
    iteration order is the one of [map_to_list]. *)
Definition mergeCache : M unit :=
  s ← get;
  match (mFirstObjectSerialized s).2 with
  | None => mret tt
  | Some first =>
      match extractObjectFrom first with
      | None => throw DecodeFailure
      | Some merged =>
          modify (set_mMergedObject (Some merged));;
          addObjectsMerged 1;;
          match merged with
          | TObjectPtr _ => forEach (map_to_list (mCache s)) mergeTObjectEntry
          | MergeInterfacePtr _ => forEach (map_to_list (mCache s)) mergeInterfaceEntry
          | VectorOfTObjectPtrs _ => forEach (map_to_list (mCache s)) mergeVectorEntry
          end
      end
  end.

(** The five metrics of publish, in the order they are sent. *)
Definition sendMetrics : M unit :=
  s ← get;
  emit (Metric "total_objects_merged" (mTotalObjectsMerged s) RATE);;
  emit (Metric "objects_merged_since_last_publication" (mObjectsMerged s) NONE);;
  emit (Metric "total_updates_received" (mTotalUpdatesReceived s) RATE);;
  emit (Metric "updates_received_since_last_publication" (mUpdatesReceived s) NONE);;
  emit (Metric "cycles_since_reset" (mCyclesSinceReset s) NONE).

(** FullHistoryMerger::publish *)
Definition publish : M unit :=
  s ← get;
  match mMergedObject s with
  | None => mret tt
  | Some merged =>
      if snapshot (mSubSpec s) merged
      then emit (Snapshot (mSubSpec s) merged)
      else throw (RuntimeError "mMergedObjectIntegral' variant has no value.")
  end;;
  modify (λ s, set_totals (mTotalObjectsMerged s + mObjectsMerged s)
                          (mTotalUpdatesReceived s + mUpdatesReceived s) s);;
  sendMetrics;;
  modify (set_mObjectsMerged 0);;
  modify (set_mUpdatesReceived 0).

(** The inputs of one invocation of run: the data messages in the order the
    InputRecordWalker yields them, and whether the timer input is valid. *)
Record Inputs := {
  updates : list DataRef;
  timerValid : bool
}.

(** The first loop of run. *)
Definition ingest (refs : list DataRef) : M unit :=
  forEach refs (λ ref,
    updateCache ref;;
    modify (λ s, set_mUpdatesReceived (mUpdatesReceived s + 1) s)).

(** The retention policy at the end of a published cycle. *)
Definition mustClear (s : State) : bool :=
  match mergedObjectTimespan_value (mConfig s) with
  | LastDifference => true
  | NCycles => bool_decide (mergedObjectTimespan_param (mConfig s) = mCyclesSinceReset s)
  end.

(** FullHistoryMerger::run *)
Definition run (inputs : Inputs) : M unit :=
  ingest (updates inputs);;
  s ← get;
  if timerValid inputs && negb (bool_decide ((mFirstObjectSerialized s).1 = ""%string))
  then
    modify (λ s, set_mCyclesSinceReset (mCyclesSinceReset s + 1) s);;
    mergeCache;;
    publish;;
    s' ← get;
    if mustClear s' then clear else mret tt
  else mret tt.

(** FullHistoryMerger::endOfStream *)
Definition endOfStream : M unit :=
  mergeCache;;
  publish.

(** ** Vocabulary of the properties *)

(** isEmpty of the design: no template has been set since the last reset. *)
Definition isEmpty (s : State) : bool :=
  bool_decide ((mFirstObjectSerialized s).1 = ""%string).

(** The part of run that a tick triggers, up to the retention policy. *)
Definition publishCycle : M unit :=
  modify (λ s, set_mCyclesSinceReset (mCyclesSinceReset s + 1) s);;
  mergeCache;;
  publish.

(** The operations on an instance: the four steps the design names, and the
    entry points the framework calls (run, endOfStream, and the Start
    callback, which is [clear]). *)
Inductive Operation :=
| OpUpsert (ref : DataRef)
| OpMerge
| OpPublish
| OpClear
| OpRun (inputs : Inputs)
| OpEndOfStream.

Definition perform (op : Operation) : M unit :=
  match op with
  | OpUpsert ref => updateCache ref
  | OpMerge => mergeCache
  | OpPublish => publish
  | OpClear => clear
  | OpRun inputs => run inputs
  | OpEndOfStream => endOfStream
  end.

(** The states an instance can be in: the constructed one, and the one any
    operation leaves, whether it returned or threw. *)
Inductive reachable (config : MergerConfig) (subSpec : N) : State -> Prop :=
| reachable_init : reachable config subSpec (initState config subSpec)
| reachable_step op s :
    reachable config subSpec s ->
    reachable config subSpec (stateOf (perform op s)).

(** A sequence of operations on an instance that survives exceptions: an
    operation that throws leaves the members as they are and the next one
    is performed all the same. *)
Fixpoint performAll (ops : list Operation) (s : State) : State * list Event :=
  match ops with
  | [] => (s, [])
  | op :: ops' =>
      let r := perform op s in
      let (s', out) := performAll ops' (stateOf r) in
      (s', outputOf r ++ out)
  end.

(** The snapshots among the events of an output. *)
Definition isSnapshot (ev : Event) : bool :=
  match ev with Snapshot _ _ => true | Metric _ _ _ => false end.

Definition snapshots (out : list Event) : list Event := filter isSnapshot out.

(** The five counters of a state. *)
Definition counters (s : State) : list Z :=
  [mCyclesSinceReset s; mObjectsMerged s; mTotalObjectsMerged s;
   mUpdatesReceived s; mTotalUpdatesReceived s].

(** The same members under another configuration. *)
Definition withConfig (config : MergerConfig) (s : State) : State :=
  {| mConfig := config; mSubSpec := mSubSpec s;
     mFirstObjectSerialized := mFirstObjectSerialized s;
     mMergedObject := mMergedObject s; mCache := mCache s;
     mCyclesSinceReset := mCyclesSinceReset s;
     mTotalObjectsMerged := mTotalObjectsMerged s;
     mObjectsMerged := mObjectsMerged s;
     mTotalUpdatesReceived := mTotalUpdatesReceived s;
     mUpdatesReceived := mUpdatesReceived s |}.

Definition resWithConfig {A} (config : MergerConfig) (r : Res A) : Res A :=
  match r with
  | Done a s out => Done a (withConfig config s) out
  | Raised e s out => Raised e (withConfig config s) out
  end.

(** What publish does once the object has been handed over (or there was
    none): the totals absorb the per-cycle counters, the five metrics are
    sent, and the per-cycle counters are zeroed. *)
Definition published (s : State) : State :=
  set_mUpdatesReceived 0 (set_mObjectsMerged 0
    (set_totals (mTotalObjectsMerged s + mObjectsMerged s)
                (mTotalUpdatesReceived s + mUpdatesReceived s) s)).

Definition metricsOf (s : State) : list Event :=
  [Metric "total_objects_merged" (mTotalObjectsMerged s + mObjectsMerged s) RATE;
   Metric "objects_merged_since_last_publication" (mObjectsMerged s) NONE;
   Metric "total_updates_received" (mTotalUpdatesReceived s + mUpdatesReceived s) RATE;
   Metric "updates_received_since_last_publication" (mUpdatesReceived s) NONE;
   Metric "cycles_since_reset" (mCyclesSinceReset s) NONE].

(** The loop mergeCache runs over the cache, by the kind of the template. *)
Definition mergeEntry (merged : Object) : string * Object -> M unit :=
  match merged with
  | TObjectPtr _ => mergeTObjectEntry
  | MergeInterfacePtr _ => mergeInterfaceEntry
  | VectorOfTObjectPtrs _ => mergeVectorEntry
  end.

(** mergeCache writes mMergedObject and mObjectsMerged, nothing else. *)
Definition mergeFrame (s s' : State) : Prop :=
  ∃ m n, s' = set_mObjectsMerged n (set_mMergedObject m s).

(** The invariant of the store and the counters: the template's source and
    its stored message are set together, nothing is cached or counted while
    there is no template, and the template's source is not a cache key. *)
Record storeInv (s : State) : Prop := {
  inv_first : (mFirstObjectSerialized s).1 = ""%string <->
              (mFirstObjectSerialized s).2 = None;
  inv_empty : (mFirstObjectSerialized s).1 = ""%string ->
              mMergedObject s = None /\ mCache s = ∅ /\
              counters s = [0; 0; 0; 0; 0];
  inv_cache : mCache s !! (mFirstObjectSerialized s).1 = None
}.

(** A property of the members that a call does not break. *)
Definition keeps (P : State -> Prop) : relation State := λ s s', P s -> P s'.

(** What the first loop of run leaves alone: the configuration, the cycle
    count, and the source of a template that is already set. *)
Definition ingestFrame (s s' : State) : Prop :=
  mConfig s' = mConfig s ∧ mSubSpec s' = mSubSpec s ∧
  mCyclesSinceReset s' = mCyclesSinceReset s ∧
  ((mFirstObjectSerialized s).1 ≠ ""%string ->
   (mFirstObjectSerialized s').1 = (mFirstObjectSerialized s).1).

(** The metrics of a publish with nothing merged and nothing received. *)
Definition zeroMetrics : list Event :=
  [Metric "total_objects_merged" 0 RATE;
   Metric "objects_merged_since_last_publication" 0 NONE;
   Metric "total_updates_received" 0 RATE;
   Metric "updates_received_since_last_publication" 0 NONE;
   Metric "cycles_since_reset" 0 NONE].

(** A computation that neither reads nor writes the configuration. *)
Definition configBlind {A} (m : M A) : Prop :=
  ∀ config s, m (withConfig config s) = resWithConfig config (m s).

(** The kind of a payload. *)
Inductive Kind := KTObject | KMergeInterface | KVector.

Definition kindOf (o : Object) : Kind :=
  match o with
  | TObjectPtr _ => KTObject
  | MergeInterfacePtr _ => KMergeInterface
  | VectorOfTObjectPtrs _ => KVector
  end.

(** ** Vocabulary of the further properties *)

(** The sources the store holds something for: the template's source and the
    keys of the cache. *)
Definition sources (s : State) : gset string :=
  (if bool_decide ((mFirstObjectSerialized s).1 = ""%string)
   then ∅ else {[ (mFirstObjectSerialized s).1 ]}) ∪ dom (mCache s).

(** The TObjects among the entries of the cache, in the order of iteration. *)
Definition tobjectsOf (entries : list (string * Object)) : list TObject :=
  omap (λ entry, match entry.2 with TObjectPtr o => Some o | _ => None end)
       entries.

(** One iteration of the loop of mergeCache, seen from the merged object:
    the merged object and the number of objects counted, or the exception. *)
Definition mergeStep (merged : Object) (target : ObjectStore) (entry : Object) :
    Exn + Object * Z :=
  match merged with
  | TObjectPtr _ =>
      match target, entry with
      | Some (TObjectPtr t), TObjectPtr o => inr (TObjectPtr (mergeTObject t o), 1)
      | _, _ => inl BadVariantAccess
      end
  | MergeInterfacePtr _ =>
      match target, entry with
      | Some (MergeInterfacePtr t), MergeInterfacePtr o =>
          inr (MergeInterfacePtr (mergeInterface t o), 1)
      | _, _ => inl BadVariantAccess
      end
  | VectorOfTObjectPtrs _ =>
      match target, entry with
      | Some (VectorOfTObjectPtrs t), VectorOfTObjectPtrs o =>
          match mergeCollection t o with
          | Some r => inr (VectorOfTObjectPtrs r, Z.of_nat (length r))
          | None => inl LengthMismatch
          end
      | _, _ => inl BadVariantAccess
      end
  end.

(** The loop of mergeCache over [entries], seen from the merged object and
    the count: what they are when the loop ends, and the exception that ended
    it, if one did. *)
Fixpoint mergeFold (merged : Object) (target : ObjectStore) (count : Z)
    (entries : list (string * Object)) : ObjectStore * Z * option Exn :=
  match entries with
  | [] => (target, count, None)
  | entry :: entries' =>
      match mergeStep merged target entry.2 with
      | inr (target', n) => mergeFold merged (Some target') (count + n) entries'
      | inl e => (target, count, Some e)
      end
  end.

(** The result of a loop of mergeCache that ends as [r] says. *)
Definition mergeResult (r : ObjectStore * Z * option Exn) (s : State) : Res unit :=
  match r.2 with
  | None => Done tt (set_mObjectsMerged r.1.2 (set_mMergedObject r.1.1 s)) []
  | Some e => Raised e (set_mObjectsMerged r.1.2 (set_mMergedObject r.1.1 s)) []
  end.

(** Calls that leave a view [f] of the members as it was. *)
Definition sameOn {B} (f : State -> B) : relation State := λ s s', f s' = f s.

(** What updateCache and the first loop of run never write. *)
Definition beyondIngest (s : State) :=
  (mConfig s, mSubSpec s, mMergedObject s, mCyclesSinceReset s,
   mTotalObjectsMerged s, mObjectsMerged s, mTotalUpdatesReceived s).

(** What mergeCache never writes. *)
Definition beyondMerge (s : State) :=
  (mConfig s, mSubSpec s, mFirstObjectSerialized s, mCache s,
   mCyclesSinceReset s, mTotalObjectsMerged s, mTotalUpdatesReceived s,
   mUpdatesReceived s).

(** What publish never writes. *)
Definition beyondPublish (s : State) :=
  (mConfig s, mSubSpec s, mFirstObjectSerialized s, mCache s,
   mMergedObject s, mCyclesSinceReset s).

(** What endOfStream never writes. *)
Definition beyondEndOfStream (s : State) :=
  (mConfig s, mSubSpec s, mFirstObjectSerialized s, mCache s,
   mCyclesSinceReset s).

(** The events of a publication: the snapshot and the five metrics, with
    [objects] merged and [received] updates received since the last one. *)
Definition publication (s : State) (merged : Object) (objects received cycles : Z) :
    list Event :=
  [Snapshot (mSubSpec s) merged;
   Metric "total_objects_merged" (mTotalObjectsMerged s + objects) RATE;
   Metric "objects_merged_since_last_publication" objects NONE;
   Metric "total_updates_received" (mTotalUpdatesReceived s + received) RATE;
   Metric "updates_received_since_last_publication" received NONE;
   Metric "cycles_since_reset" cycles NONE].

End Merger.

Arguments DataRef : clear implicits.
Arguments Build_DataRef {InputSpec}.
Arguments spec {InputSpec}.
Arguments header {InputSpec}.
Arguments payload {InputSpec}.
Arguments TObjectPtr {TObject MergeInterface}.
Arguments MergeInterfacePtr {TObject MergeInterface}.
Arguments VectorOfTObjectPtrs {TObject MergeInterface}.
Arguments Snapshot {TObject MergeInterface}.
Arguments Metric {TObject MergeInterface}.
Arguments Build_State {TObject MergeInterface InputSpec}.
Arguments mConfig {TObject MergeInterface InputSpec}.
Arguments mSubSpec {TObject MergeInterface InputSpec}.
Arguments mFirstObjectSerialized {TObject MergeInterface InputSpec}.
Arguments mMergedObject {TObject MergeInterface InputSpec}.
Arguments mCache {TObject MergeInterface InputSpec}.
Arguments mCyclesSinceReset {TObject MergeInterface InputSpec}.
Arguments mTotalObjectsMerged {TObject MergeInterface InputSpec}.
Arguments mObjectsMerged {TObject MergeInterface InputSpec}.
Arguments mTotalUpdatesReceived {TObject MergeInterface InputSpec}.
Arguments mUpdatesReceived {TObject MergeInterface InputSpec}.
Arguments set_mFirstObjectSerialized {TObject MergeInterface InputSpec}.
Arguments set_mMergedObject {TObject MergeInterface InputSpec}.
Arguments set_mCache {TObject MergeInterface InputSpec}.
Arguments set_mCyclesSinceReset {TObject MergeInterface InputSpec}.
Arguments set_mObjectsMerged {TObject MergeInterface InputSpec}.
Arguments set_mUpdatesReceived {TObject MergeInterface InputSpec}.
Arguments set_totals {TObject MergeInterface InputSpec}.
Arguments initState {TObject MergeInterface InputSpec}.
Arguments Done {TObject MergeInterface InputSpec A}.
Arguments Raised {TObject MergeInterface InputSpec A}.
Arguments prepend {TObject MergeInterface InputSpec A}.
Arguments get {TObject MergeInterface InputSpec}.
Arguments modify {TObject MergeInterface InputSpec}.
Arguments throw {TObject MergeInterface InputSpec A}.
Arguments emit {TObject MergeInterface InputSpec}.
Arguments forEach {TObject MergeInterface InputSpec A}.
Arguments stateOf {TObject MergeInterface InputSpec A}.
Arguments outputOf {TObject MergeInterface InputSpec A}.
Arguments returned {TObject MergeInterface InputSpec A}.
Arguments clear {TObject MergeInterface InputSpec}.
Arguments sourceID {InputSpec}.
Arguments mergeCollection {TObject}.
Arguments updateCache {TObject MergeInterface InputSpec}.
Arguments addObjectsMerged {TObject MergeInterface InputSpec}.
Arguments mergeTObjectEntry {TObject MergeInterface InputSpec}.
Arguments mergeInterfaceEntry {TObject MergeInterface InputSpec}.
Arguments mergeVectorEntry {TObject MergeInterface InputSpec}.
Arguments mergeCache {TObject MergeInterface InputSpec}.
Arguments sendMetrics {TObject MergeInterface InputSpec}.
Arguments publish {TObject MergeInterface InputSpec}.
Arguments Build_Inputs {InputSpec}.
Arguments updates {InputSpec}.
Arguments timerValid {InputSpec}.
Arguments ingest {TObject MergeInterface InputSpec}.
Arguments mustClear {TObject MergeInterface InputSpec}.
Arguments run {TObject MergeInterface InputSpec}.
Arguments endOfStream {TObject MergeInterface InputSpec}.
Arguments isEmpty {TObject MergeInterface InputSpec}.
Arguments publishCycle {TObject MergeInterface InputSpec}.
Arguments OpUpsert {InputSpec}.
Arguments OpMerge {InputSpec}.
Arguments OpPublish {InputSpec}.
Arguments OpClear {InputSpec}.
Arguments OpRun {InputSpec}.
Arguments OpEndOfStream {InputSpec}.
Arguments perform {TObject MergeInterface InputSpec}.
Arguments reachable {TObject MergeInterface InputSpec}.
Arguments performAll {TObject MergeInterface InputSpec}.
Arguments isSnapshot {TObject MergeInterface}.
Arguments snapshots {TObject MergeInterface}.
Arguments counters {TObject MergeInterface InputSpec}.
Arguments withConfig {TObject MergeInterface InputSpec}.
Arguments resWithConfig {TObject MergeInterface InputSpec A}.
Arguments storeInv {TObject MergeInterface InputSpec}.
Arguments publication {TObject MergeInterface InputSpec}.
Arguments beyondEndOfStream {TObject MergeInterface InputSpec}.
Arguments beyondPublish {TObject MergeInterface InputSpec}.
Arguments beyondMerge {TObject MergeInterface InputSpec}.
Arguments beyondIngest {TObject MergeInterface InputSpec}.
Arguments sameOn {TObject MergeInterface InputSpec B}.
Arguments mergeResult {TObject MergeInterface InputSpec}.
Arguments mergeFold {TObject MergeInterface}.
Arguments mergeStep {TObject MergeInterface}.
Arguments tobjectsOf {TObject MergeInterface}.
Arguments sources {TObject MergeInterface InputSpec}.
Arguments kindOf {TObject MergeInterface}.
Arguments configBlind {TObject MergeInterface InputSpec A}.
Arguments zeroMetrics {TObject MergeInterface}.
Arguments ingestFrame {TObject MergeInterface InputSpec}.
Arguments inv_first {TObject MergeInterface InputSpec s}.
Arguments inv_empty {TObject MergeInterface InputSpec s}.
Arguments inv_cache {TObject MergeInterface InputSpec s}.
Arguments keeps {TObject MergeInterface InputSpec}.
Arguments mergeEntry {TObject MergeInterface InputSpec}.
Arguments mergeFrame {TObject MergeInterface InputSpec}.
Arguments published {TObject MergeInterface InputSpec}.
Arguments metricsOf {TObject MergeInterface InputSpec}.

(** ** A small instance

    Numeric accumulators as objects: a TObject and a MergeInterface object
    are integers merged by addition.  The payload's first byte tells the kind
    (1: TObject, 2: MergeInterface, 3: vector of TObjects), the other bytes
    are the values; any other payload does not decode. *)

Definition demoValue (b : Byte.byte) : Z := Z.of_N (Byte.to_N b).

Definition demoExtract (ref : DataRef unit) : option (@Object Z Z) :=
  match payload ref with
  | [Byte.x01; v] => Some (TObjectPtr (demoValue v))
  | [Byte.x02; v] => Some (MergeInterfacePtr (demoValue v))
  | Byte.x03 :: vs => Some (VectorOfTObjectPtrs (demoValue <$> vs))
  | _ => None
  end.

Definition demoSnapshot (subSpec : N) (o : @Object Z Z) : bool := true.

Definition demoMessage (origin : string) (bytes : list Byte.byte) : DataRef unit :=
  {| spec := tt;
     header := {| dataOrigin := origin; dataDescription := "MO"; subSpecification := 0 |};
     payload := bytes |}.

Definition policyNCycles (k : Z) : MergerConfig :=
  {| mergedObjectTimespan_value := NCycles; mergedObjectTimespan_param := k |}.

Definition policyLastDifference : MergerConfig :=
  {| mergedObjectTimespan_value := LastDifference; mergedObjectTimespan_param := 0 |}.

Definition demoFailingSnapshot (subSpec : N) (o : @Object Z Z) : bool := false.

(** TObject messages from three sources, a second one from A, a
    MergeInterface message from B, two vectors, and a payload that does not
    decode. *)
Definition demoA1 : DataRef unit := demoMessage "A" [Byte.x01; Byte.x01].
Definition demoA5 : DataRef unit := demoMessage "A" [Byte.x01; Byte.x05].
Definition demoB1 : DataRef unit := demoMessage "B" [Byte.x01; Byte.x01].
Definition demoB5 : DataRef unit := demoMessage "B" [Byte.x01; Byte.x05].
Definition demoC1 : DataRef unit := demoMessage "C" [Byte.x01; Byte.x01].
Definition demoBInterface : DataRef unit := demoMessage "B" [Byte.x02; Byte.x01].
Definition demoAVector : DataRef unit := demoMessage "A" [Byte.x03; Byte.x01; Byte.x01].
Definition demoBVector : DataRef unit := demoMessage "B" [Byte.x03; Byte.x01; Byte.x01].
Definition demoABad : DataRef unit := demoMessage "A" [].
Definition demoBBad : DataRef unit := demoMessage "B" [].

(** A tick with the given updates, and the invocation of run without tick. *)
Definition demoTick (refs : list (DataRef unit)) : Inputs unit :=
  {| updates := refs; timerValid := true |}.
Definition demoNoTick (refs : list (DataRef unit)) : Inputs unit :=
  {| updates := refs; timerValid := false |}.

(** ** Properties *)

Section MergerProperties.

Variables TObject MergeInterface InputSpec : Type.
Variable mergeTObject : TObject -> TObject -> TObject.
Variable mergeInterface : MergeInterface -> MergeInterface -> MergeInterface.
Variable extractObjectFrom : DataRef InputSpec -> option (@Object TObject MergeInterface).
Variable snapshot : N -> @Object TObject MergeInterface -> bool.

Abbreviation State := (State TObject MergeInterface InputSpec).
Abbreviation M := (M TObject MergeInterface InputSpec).
Abbreviation updateCache := (updateCache extractObjectFrom).
Abbreviation ingest := (ingest extractObjectFrom).
Abbreviation mergeTObjectEntry := (mergeTObjectEntry (InputSpec:=InputSpec) mergeTObject).
Abbreviation mergeInterfaceEntry := (mergeInterfaceEntry (InputSpec:=InputSpec) mergeInterface).
Abbreviation mergeVectorEntry :=
  (mergeVectorEntry (MergeInterface:=MergeInterface) (InputSpec:=InputSpec) mergeTObject).
Abbreviation mergeEntry := (mergeEntry (InputSpec:=InputSpec) mergeTObject mergeInterface).
Abbreviation mergeFrame := (@mergeFrame TObject MergeInterface InputSpec).
Abbreviation mergeCache := (mergeCache mergeTObject mergeInterface extractObjectFrom).
Abbreviation publish := (publish (InputSpec:=InputSpec) snapshot).
Abbreviation publishCycle :=
  (publishCycle mergeTObject mergeInterface extractObjectFrom snapshot).
Abbreviation run := (run mergeTObject mergeInterface extractObjectFrom snapshot).
Abbreviation endOfStream :=
  (endOfStream mergeTObject mergeInterface extractObjectFrom snapshot).
Abbreviation perform := (perform mergeTObject mergeInterface extractObjectFrom snapshot).
Abbreviation performAll :=
  (performAll mergeTObject mergeInterface extractObjectFrom snapshot).
Abbreviation reachable :=
  (reachable mergeTObject mergeInterface extractObjectFrom snapshot).

Ltac unfold_setters :=
  unfold set_mObjectsMerged, set_mMergedObject, set_mCache,
    set_mUpdatesReceived, set_mCyclesSinceReset, set_mFirstObjectSerialized,
    set_totals in *; simpl in *.

Ltac munfold :=
  unfold mbind, M_bind, mret, M_ret, get, modify, throw, emit, addObjectsMerged.

(** *** The monad *)

Lemma bind_run {A B} (m : M A) (f : A -> M B) s :
  (m ≫= f) s =
  match m s with
  | Done a s1 out1 => prepend out1 (f a s1)
  | Raised e s1 out1 => Raised e s1 out1
  end.
Proof. reflexivity. Qed.

Lemma prepend_nil {A} (r : Res TObject MergeInterface InputSpec A) : prepend [] r = r.
Proof. by destruct r. Qed.

Lemma stateOf_prepend {A} out (r : Res TObject MergeInterface InputSpec A) :
  stateOf (prepend out r) = stateOf r.
Proof. by destruct r. Qed.

Lemma outputOf_prepend {A} out (r : Res TObject MergeInterface InputSpec A) :
  outputOf (prepend out r) = out ++ outputOf r.
Proof. by destruct r. Qed.

Lemma returned_prepend {A} out (r : Res TObject MergeInterface InputSpec A) :
  returned (prepend out r) = returned r.
Proof. by destruct r. Qed.

Lemma res_eta (r : Res TObject MergeInterface InputSpec unit) :
  returned r = true -> r = Done tt (stateOf r) (outputOf r).
Proof. by destruct r as [[] ? ?|]. Qed.

(** A relation between the state before and after a call, established by
    all the calls of a computation. *)
Definition establishes (R : relation State) {A} (m : M A) : Prop :=
  ∀ s, R s (stateOf (m s)).

Lemma establishes_bind R `{!Transitive R} {A B} (m : M A) (f : A -> M B) :
  establishes R m -> (∀ a, establishes R (f a)) -> establishes R (m ≫= f).
Proof.
  intros Hm Hf s. rewrite bind_run. specialize (Hm s).
  destruct (m s) as [a s1 out1|e s1 out1]; simpl in *; [|done].
  rewrite stateOf_prepend. etrans; [done|apply Hf].
Qed.

Lemma establishes_forEach R `{!PreOrder R} {A} (l : list A) (body : A -> M unit) :
  (∀ x, establishes R (body x)) -> establishes R (forEach l body).
Proof.
  intros Hbody. induction l as [|x l IH]; simpl.
  - intros s. reflexivity.
  - apply establishes_bind; [apply _|apply Hbody|done].
Qed.

(** Computations without output. *)
Definition silent {A} (m : M A) : Prop := ∀ s, outputOf (m s) = [].

Lemma silent_bind {A B} (m : M A) (f : A -> M B) :
  silent m -> (∀ a, silent (f a)) -> silent (m ≫= f).
Proof.
  intros Hm Hf s. rewrite bind_run. specialize (Hm s).
  destruct (m s) as [a s1 out1|e s1 out1]; simpl in *; [|done].
  rewrite outputOf_prepend, Hm. apply Hf.
Qed.

Lemma silent_forEach {A} (l : list A) (body : A -> M unit) :
  (∀ x, silent (body x)) -> silent (forEach l body).
Proof.
  intros Hbody. induction l as [|x l IH]; simpl; [done|].
  by apply silent_bind.
Qed.

(** *** clear, publish and updateCache on their own *)

Lemma clear_run (s : State) :
  clear s = Done tt (initState (mConfig s) (mSubSpec s)) [].
Proof. reflexivity. Qed.

(** C5: after clear(), from any state, there are no template bytes, the
    cache is empty and the five counters (cyclesSinceReset, the two
    per-cycle counters and the two totals) are zero. *)
Theorem C5_clear_resets_store_and_counters (s : State) :
  ∃ s', clear s = Done tt s' [] ∧
    mFirstObjectSerialized s' = (""%string, None) ∧
    mCache s' = ∅ ∧
    mCyclesSinceReset s' = 0 ∧
    mObjectsMerged s' = 0 ∧ mTotalObjectsMerged s' = 0 ∧
    mUpdatesReceived s' = 0 ∧ mTotalUpdatesReceived s' = 0.
Proof. eexists. split; [apply clear_run|]. by repeat split. Qed.

Lemma publish_run (s : State) :
  publish s =
  match mMergedObject s with
  | None => Done tt (published s) (metricsOf s)
  | Some merged =>
      if snapshot (mSubSpec s) merged
      then Done tt (published s) (Snapshot (mSubSpec s) merged :: metricsOf s)
      else Raised (RuntimeError "mMergedObjectIntegral' variant has no value.") s []
  end.
Proof.
  unfold publish, sendMetrics. munfold.
  destruct (mMergedObject s) as [merged|] eqn:Hm; simpl; [|done].
  destruct (snapshot (mSubSpec s) merged); done.
Qed.

(** C10: when the handoff of a non-empty merged object fails, publish throws
    and the call changes nothing: the totals are not incremented, the
    per-cycle counters are not zeroed and nothing is sent. *)
Theorem C10_publish_failure_changes_nothing (s : State) merged :
  mMergedObject s = Some merged ->
  snapshot (mSubSpec s) merged = false ->
  publish s =
    Raised (RuntimeError "mMergedObjectIntegral' variant has no value.") s [].
Proof. intros Hm Hs. by rewrite publish_run, Hm, Hs. Qed.

Lemma updateCache_run (ref : DataRef InputSpec) (s : State) :
  updateCache ref s =
  if bool_decide ((mFirstObjectSerialized s).1 = ""%string)
     || bool_decide ((mFirstObjectSerialized s).1 = sourceID ref)
  then Done tt (set_mFirstObjectSerialized (sourceID ref, Some ref) s) []
  else match extractObjectFrom ref with
       | Some o => Done tt (set_mCache (<[sourceID ref := o]> (mCache s)) s) []
       | None => Raised DecodeFailure s []
       end.
Proof.
  unfold updateCache. munfold.
  destruct (_ || _); [done|]. by destruct (extractObjectFrom ref).
Qed.

(** C6: two updates from one source: after the second one the store holds
    the second payload for that source, in the template slot or in the
    cache, and is the store the second update alone would have left; so is
    the merge of the next tick. *)
Theorem C6_last_write_wins (s : State) (u1 u2 : DataRef InputSpec) :
  sourceID u1 = sourceID u2 ->
  returned (updateCache u2 (stateOf (updateCache u1 s))) = true ->
  let s2 := stateOf (updateCache u2 (stateOf (updateCache u1 s))) in
  s2 = stateOf (updateCache u2 s) ∧
  (mFirstObjectSerialized s2 = (sourceID u2, Some u2) ∨
   (mCache s2 !! sourceID u2 = extractObjectFrom u2 ∧
    is_Some (extractObjectFrom u2))) ∧
  mergeCache s2 = mergeCache (stateOf (updateCache u2 s)).
Proof.
  intros Hid Hret s2.
  assert (Hs2 : s2 = stateOf (updateCache u2 s) ∧
    (mFirstObjectSerialized s2 = (sourceID u2, Some u2) ∨
     (mCache s2 !! sourceID u2 = extractObjectFrom u2 ∧
      is_Some (extractObjectFrom u2)))).
  { subst s2. revert Hret. rewrite !updateCache_run, Hid.
    destruct (bool_decide ((mFirstObjectSerialized s).1 = ""%string)) eqn:He;
      simpl.
    { rewrite (bool_decide_true (sourceID u2 = sourceID u2)) by done.
      rewrite orb_true_r. simpl. auto. }
    destruct (bool_decide ((mFirstObjectSerialized s).1 = sourceID u2)) eqn:Hs;
      simpl.
    { rewrite (bool_decide_true (sourceID u2 = sourceID u2)) by done.
      rewrite orb_true_r. simpl. auto. }
    destruct (extractObjectFrom u1) as [o1|]; simpl;
      rewrite He, Hs; simpl;
      destruct (extractObjectFrom u2) as [o2|] eqn:H2; simpl; try done;
      intros _.
    - rewrite insert_insert_eq. split; [done|]. right.
      by rewrite lookup_insert_eq.
    - split; [done|]. right. by rewrite lookup_insert_eq. }
  destruct Hs2 as [Heq Hst]. split; [done|]. split; [done|]. by rewrite Heq.
Qed.


Lemma sourceID_nonempty (ref : DataRef InputSpec) : sourceID ref ≠ ""%string.
Proof. unfold sourceID. by destruct (dataOrigin (header ref)). Qed.

Lemma get_bind_run {B} (f : State -> M B) (s : State) : (get ≫= f) s = f s s.
Proof. munfold. by rewrite prepend_nil. Qed.

Lemma modify_bind_run {B} (g : State -> State) (f : unit -> M B) (s : State) :
  (modify g ≫= f) s = f tt (g s).
Proof. munfold. by rewrite prepend_nil. Qed.

(** *** mergeCache *)

Lemma mergeCache_run (s : State) :
  mergeCache s =
  match (mFirstObjectSerialized s).2 with
  | None => Done tt s []
  | Some first =>
      match extractObjectFrom first with
      | None => Raised DecodeFailure s []
      | Some merged =>
          forEach (map_to_list (mCache s)) (mergeEntry merged)
            (set_mObjectsMerged (mObjectsMerged s + 1)
               (set_mMergedObject (Some merged) s))
      end
  end.
Proof.
  unfold mergeCache. rewrite get_bind_run.
  destruct (mFirstObjectSerialized s).2 as [first|]; [|done].
  destruct (extractObjectFrom first) as [merged|]; [|done].
  rewrite modify_bind_run. unfold addObjectsMerged. rewrite modify_bind_run.
  by destruct merged.
Qed.

#[local] Instance mergeFrame_preorder : PreOrder mergeFrame.
Proof.
  split.
  - intros s. exists (mMergedObject s), (mObjectsMerged s). by destruct s.
  - intros s1 s2 s3 (m & n & ->) (m' & n' & ->). exists m', n'. by destruct s1.
Qed.

Lemma mergeEntry_frame merged entry : establishes mergeFrame (mergeEntry merged entry).
Proof.
  intros s.
  destruct merged; simpl;
    [unfold mergeTObjectEntry
    |unfold mergeInterfaceEntry
    |unfold mergeVectorEntry];
    rewrite get_bind_run;
    repeat case_match; try reflexivity;
    unfold addObjectsMerged; rewrite modify_bind_run; unfold modify; simpl;
    eexists _, _; by destruct s.
Qed.

Lemma mergeEntry_silent merged entry : silent (mergeEntry merged entry).
Proof.
  intros s.
  destruct merged; simpl;
    [unfold mergeTObjectEntry
    |unfold mergeInterfaceEntry
    |unfold mergeVectorEntry];
    rewrite get_bind_run;
    repeat case_match; try reflexivity;
    unfold addObjectsMerged; by rewrite modify_bind_run.
Qed.

Lemma mergeCache_frame : establishes mergeFrame mergeCache.
Proof.
  intros s. rewrite mergeCache_run.
  destruct (mFirstObjectSerialized s).2 as [first|]; [|reflexivity].
  destruct (extractObjectFrom first) as [merged|]; [|reflexivity].
  etrans; [by eexists _, _|].
  apply (establishes_forEach mergeFrame _ _ (mergeEntry_frame merged)).
Qed.

Lemma mergeCache_silent : silent mergeCache.
Proof.
  intros s. rewrite mergeCache_run.
  destruct (mFirstObjectSerialized s).2 as [first|]; [|done].
  destruct (extractObjectFrom first) as [merged|]; [|done].
  apply silent_forEach, mergeEntry_silent.
Qed.

(** A merge that returns with a template in place leaves a merged object. *)
Lemma mergeCache_merged (s : State) :
  (mFirstObjectSerialized s).2 ≠ None ->
  returned (mergeCache s) = true ->
  mMergedObject (stateOf (mergeCache s)) ≠ None.
Proof.
  rewrite mergeCache_run.
  destruct (mFirstObjectSerialized s).2 as [first|]; [intros _|done].
  destruct (extractObjectFrom first) as [merged|]; [|done].
  set (s0 := set_mObjectsMerged _ _).
  assert (H0 : mMergedObject s0 ≠ None) by done.
  clearbody s0. revert s0 H0.
  induction (map_to_list (mCache s)) as [|entry l IH]; intros s0 H0; [done|].
  simpl. rewrite bind_run.
  destruct (mergeEntry merged entry s0) as [[] s1 out1|] eqn:He; [|done].
  rewrite returned_prepend, stateOf_prepend. apply IH.
  revert He.
  destruct merged; simpl;
    [unfold mergeTObjectEntry
    |unfold mergeInterfaceEntry
    |unfold mergeVectorEntry];
    rewrite get_bind_run;
    repeat case_match; try done;
    unfold addObjectsMerged; rewrite modify_bind_run; unfold modify;
    intros [= <- _]; done.
Qed.


(** *** The invariant of the store *)

#[local] Instance keeps_preorder (P : State -> Prop) : PreOrder (keeps P).
Proof.
  split; [by intros s Hs|].
  intros s1 s2 s3 H12 H23 H. by apply H23, H12.
Qed.

Lemma storeInv_init config subSpec : storeInv (initState config subSpec : State).
Proof. by split. Qed.

Lemma storeInv_template (s : State) :
  storeInv s -> (mFirstObjectSerialized s).1 ≠ ""%string ->
  (mFirstObjectSerialized s).2 ≠ None.
Proof. intros Hinv Hne Hnone. by apply Hne, Hinv. Qed.

Lemma updateCache_storeInv ref : establishes (keeps storeInv) (updateCache ref).
Proof.
  intros s Hinv. rewrite updateCache_run.
  pose proof (sourceID_nonempty ref) as Hsid.
  destruct (bool_decide ((mFirstObjectSerialized s).1 = ""%string)) eqn:He; simpl.
  { apply bool_decide_eq_true in He. destruct (inv_empty Hinv He) as (_ & Hc & _).
    split; simpl; [done|done|]. by rewrite Hc. }
  apply bool_decide_eq_false in He.
  destruct (bool_decide ((mFirstObjectSerialized s).1 = sourceID ref)) eqn:Hs; simpl.
  { apply bool_decide_eq_true in Hs.
    split; simpl; [done|done|]. rewrite <- Hs. apply Hinv. }
  apply bool_decide_eq_false in Hs.
  destruct (extractObjectFrom ref) as [o|]; simpl; [|done].
  split; simpl; [apply Hinv|done|].
  rewrite lookup_insert_ne by done. apply Hinv.
Qed.

(** After an update that returned there is a template. *)
Lemma updateCache_template ref (s : State) :
  returned (updateCache ref s) = true ->
  (mFirstObjectSerialized (stateOf (updateCache ref s))).1 ≠ ""%string.
Proof.
  rewrite updateCache_run.
  pose proof (sourceID_nonempty ref) as Hsid.
  destruct (bool_decide ((mFirstObjectSerialized s).1 = ""%string)) eqn:He; simpl;
    [done|].
  apply bool_decide_eq_false in He.
  destruct (bool_decide _); simpl; [done|].
  by destruct (extractObjectFrom ref).
Qed.

Lemma storeInv_frame (s s' : State) :
  storeInv s ->
  (mFirstObjectSerialized s).1 ≠ ""%string ->
  mFirstObjectSerialized s' = mFirstObjectSerialized s ->
  mCache s' = mCache s ->
  storeInv s'.
Proof.
  intros Hinv Hne Hf Hc. split; rewrite ?Hf, ?Hc; [apply Hinv|done|apply Hinv].
Qed.

Lemma ingest_body_storeInv ref :
  establishes (keeps storeInv)
    (updateCache ref;;
     modify (λ s : State, set_mUpdatesReceived (mUpdatesReceived s + 1) s)).
Proof.
  intros s Hinv. rewrite bind_run.
  pose proof (updateCache_storeInv ref s Hinv) as H1.
  pose proof (updateCache_template ref s) as H2.
  destruct (updateCache ref s) as [[] s1 out1|e s1 out1]; simpl in *; [|done].
  by apply (storeInv_frame s1); [|apply H2|..].
Qed.

Lemma ingest_storeInv refs : establishes (keeps storeInv) (ingest refs).
Proof.
  apply (establishes_forEach (keeps storeInv)), ingest_body_storeInv.
Qed.

Lemma mergeCache_storeInv : establishes (keeps storeInv) mergeCache.
Proof.
  intros s Hinv.
  destruct (mergeCache_frame s) as (m & n & Hs').
  destruct (mFirstObjectSerialized s).2 as [first|] eqn:Hf.
  - rewrite Hs'. apply (storeInv_frame s); [done| |done|done].
    intros He. apply Hinv in He. congruence.
  - by rewrite mergeCache_run, Hf.
Qed.

Lemma published_storeInv (s : State) : storeInv s -> storeInv (published s).
Proof.
  intros Hinv. split; simpl; [apply Hinv| |apply Hinv].
  intros He. destruct (inv_empty Hinv He) as (Hm & Hc & Hn).
  split; [done|]. split; [done|].
  unfold counters in *. simpl. injection Hn as -> -> -> -> ->. done.
Qed.

Lemma publish_storeInv : establishes (keeps storeInv) publish.
Proof.
  intros s Hinv. rewrite publish_run.
  destruct (mMergedObject s) as [merged|]; simpl;
    [destruct (snapshot _ _); simpl|]; auto using published_storeInv.
Qed.

Lemma clear_storeInv : establishes (keeps storeInv) clear.
Proof. intros s _. apply storeInv_init. Qed.

Lemma endOfStream_storeInv : establishes (keeps storeInv) endOfStream.
Proof.
  apply establishes_bind; [apply _|apply mergeCache_storeInv|].
  intros _. apply publish_storeInv.
Qed.

Lemma run_storeInv inputs : establishes (keeps storeInv) (run inputs).
Proof.
  apply establishes_bind; [apply _|apply ingest_storeInv|].
  intros _ s Hinv. rewrite get_bind_run.
  destruct (timerValid inputs && _) eqn:Hc; [|done].
  apply andb_true_iff in Hc as [_ Hne].
  apply negb_true_iff, bool_decide_eq_false in Hne.
  rewrite modify_bind_run.
  set (s1 := set_mCyclesSinceReset _ s).
  assert (Hinv1 : storeInv s1) by (by apply (storeInv_frame s)).
  assert (H : establishes (keeps storeInv)
    (mergeCache;; publish;;
     s' ← get; if mustClear s' then clear else mret tt : M unit)).
  { apply establishes_bind; [apply _|apply mergeCache_storeInv|]. intros _.
    apply establishes_bind; [apply _|apply publish_storeInv|]. intros _.
    intros s2 H2. rewrite get_bind_run.
    destruct (mustClear s2); [apply storeInv_init|done]. }
  by apply H.
Qed.

Lemma perform_storeInv op : establishes (keeps storeInv) (perform op).
Proof.
  destruct op; simpl;
    auto using updateCache_storeInv, mergeCache_storeInv, publish_storeInv,
      clear_storeInv, run_storeInv, endOfStream_storeInv.
Qed.

Lemma reachable_storeInv config subSpec (s : State) :
  reachable config subSpec s -> storeInv s.
Proof.
  induction 1 as [|op s _ IH]; [apply storeInv_init|].
  by apply perform_storeInv.
Qed.

(** C7: in every state reached from the constructed one by upserts, merges,
    publishes and clears (and by run and endOfStream, which compose them),
    whether they returned or threw, the source held in the template slot is
    not a key of the cache. *)
Theorem C7_template_source_not_cached config subSpec (s : State) :
  reachable config subSpec s ->
  mCache s !! (mFirstObjectSerialized s).1 = None.
Proof. intros Hr. apply (reachable_storeInv _ _ _ Hr). Qed.


(** C1 (amended): in a reachable state without a template, merge returns
    with nothing merged, and the publish that follows hands no object over
    and leaves every member, the five counters included, as it was (they
    are all zero); it does send the five metrics, each with value zero. *)
Theorem C1_publish_without_template config subSpec (s : State) :
  reachable config subSpec s ->
  isEmpty s = true ->
  mergeCache s = Done tt s [] ∧
  mMergedObject s = None ∧
  counters s = [0; 0; 0; 0; 0] ∧
  publish s = Done tt s zeroMetrics.
Proof.
  intros Hr He. apply bool_decide_eq_true in He.
  pose proof (reachable_storeInv _ _ _ Hr) as Hinv.
  destruct (inv_empty Hinv He) as (Hm & Hc & Hn).
  pose proof (proj1 (inv_first Hinv) He) as Hf.
  split; [by rewrite mergeCache_run, Hf|].
  split; [done|]. split; [done|].
  rewrite publish_run, Hm. unfold counters in Hn.
  injection Hn as H1 H2 H3 H4 H5.
  unfold published, metricsOf, zeroMetrics. rewrite H1, H2, H3, H4, H5. simpl.
  f_equal. destruct s; simpl in *. by subst.
Qed.

(** *** run *)

Lemma updateCache_silent ref : silent (updateCache ref).
Proof.
  intros s. rewrite updateCache_run.
  destruct (_ || _); [done|]. by destruct (extractObjectFrom ref).
Qed.

Lemma ingest_silent refs : silent (ingest refs).
Proof.
  apply silent_forEach. intros ref.
  apply silent_bind; [apply updateCache_silent|done].
Qed.

#[local] Instance ingestFrame_preorder :
  PreOrder (@ingestFrame TObject MergeInterface InputSpec).
Proof.
  split; [by intros s|].
  intros s1 s2 s3 (Hc & Hs & Hn & Hf) (Hc' & Hs' & Hn' & Hf').
  repeat split; [congruence..|].
  intros Hne. rewrite Hf', Hf; [done|done|]. by rewrite Hf.
Qed.

Lemma ingest_frame refs : establishes ingestFrame (ingest refs).
Proof.
  apply (establishes_forEach ingestFrame). intros ref s.
  rewrite bind_run, updateCache_run.
  destruct (bool_decide ((mFirstObjectSerialized s).1 = ""%string)) eqn:He; simpl.
  { apply bool_decide_eq_true in He. by repeat split. }
  destruct (bool_decide ((mFirstObjectSerialized s).1 = sourceID ref)) eqn:Hs;
    simpl.
  { apply bool_decide_eq_true in Hs. by repeat split. }
  by destruct (extractObjectFrom ref).
Qed.


Lemma publishCycle_run (s : State) :
  publishCycle s =
  match mergeCache (set_mCyclesSinceReset (mCyclesSinceReset s + 1) s) with
  | Done _ s2 _ => publish s2
  | Raised e s2 _ => Raised e s2 []
  end.
Proof.
  unfold publishCycle. rewrite modify_bind_run, bind_run.
  pose proof (mergeCache_silent
    (set_mCyclesSinceReset (mCyclesSinceReset s + 1) s)) as Hs.
  destruct (mergeCache _) as [[] s2 out|e s2 out]; simpl in Hs; subst out;
    [by rewrite prepend_nil|done].
Qed.

Lemma run_run inputs (s : State) :
  run inputs s =
  match ingest (updates inputs) s with
  | Done _ s1 _ =>
      if timerValid inputs && negb (isEmpty s1)
      then match publishCycle s1 with
           | Done _ s2 out =>
               Done tt (if mustClear s2
                        then initState (mConfig s2) (mSubSpec s2) else s2) out
           | Raised e s2 out => Raised e s2 out
           end
      else Done tt s1 []
  | Raised e s1 _ => Raised e s1 []
  end.
Proof.
  unfold run. rewrite bind_run.
  pose proof (ingest_silent (updates inputs) s) as Hs.
  destruct (ingest _ s) as [[] s1 out|e s1 out]; simpl in Hs; subst out; [|done].
  rewrite prepend_nil, get_bind_run. unfold isEmpty.
  destruct (timerValid inputs && _); [|done].
  rewrite publishCycle_run, modify_bind_run, bind_run.
  pose proof (mergeCache_silent
    (set_mCyclesSinceReset (mCyclesSinceReset s1 + 1) s1)) as Hs.
  destruct (mergeCache _) as [[] s2 out|e s2 out]; simpl in Hs; subst out; [|done].
  rewrite prepend_nil, bind_run.
  destruct (publish s2) as [[] s3 out|e s3 out]; [|done].
  rewrite get_bind_run. simpl.
  destruct (mustClear s3); simpl; by rewrite app_nil_r.
Qed.


Lemma prepend_prepend {A} out1 out2 (r : Res TObject MergeInterface InputSpec A) :
  prepend out1 (prepend out2 r) = prepend (out1 ++ out2) r.
Proof. destruct r; simpl; by rewrite app_assoc. Qed.

Lemma forEach_app {A} (l1 l2 : list A) (body : A -> M unit) (s : State) :
  forEach (l1 ++ l2) body s =
  match forEach l1 body s with
  | Done _ s1 out1 => prepend out1 (forEach l2 body s1)
  | Raised e s1 out1 => Raised e s1 out1
  end.
Proof.
  revert s. induction l1 as [|x l1 IH]; intros s; simpl.
  - by rewrite prepend_nil.
  - rewrite !bind_run. destruct (body x s) as [[] s1 out1|]; [|done].
    rewrite IH. destruct (forEach l1 body s1) as [[] s2 out2|]; [|done].
    simpl. by rewrite prepend_prepend.
Qed.

Lemma forEach_returned_prefix {A} (l1 l2 : list A) (body : A -> M unit) (s : State) :
  returned (forEach (l1 ++ l2) body s) = true ->
  returned (forEach l1 body s) = true.
Proof. rewrite forEach_app. by destruct (forEach l1 body s). Qed.

Lemma snapshots_app (out1 out2 : list (@Event TObject MergeInterface)) :
  snapshots (out1 ++ out2) = snapshots out1 ++ snapshots out2.
Proof. apply filter_app. Qed.

Lemma publishCycle_storeInv (s : State) :
  (mFirstObjectSerialized s).1 ≠ ""%string ->
  storeInv s -> storeInv (stateOf (publishCycle s)).
Proof.
  intros Hne Hinv. unfold publishCycle. rewrite modify_bind_run.
  assert (H : establishes (keeps storeInv) (mergeCache;; publish : M unit)).
  { apply establishes_bind; [apply _|apply mergeCache_storeInv|].
    intros _. apply publish_storeInv. }
  apply H. by apply (storeInv_frame s).
Qed.

(** A published cycle: one snapshot, one more cycle counted, the template
    and the configuration as they were. *)
Lemma publishCycle_spec (s : State) :
  (mFirstObjectSerialized s).2 ≠ None ->
  returned (publishCycle s) = true ->
  mConfig (stateOf (publishCycle s)) = mConfig s ∧
  mSubSpec (stateOf (publishCycle s)) = mSubSpec s ∧
  mCyclesSinceReset (stateOf (publishCycle s)) = mCyclesSinceReset s + 1 ∧
  mFirstObjectSerialized (stateOf (publishCycle s)) = mFirstObjectSerialized s ∧
  length (snapshots (outputOf (publishCycle s))) = 1%nat.
Proof.
  intros Hf. rewrite publishCycle_run.
  set (s1 := set_mCyclesSinceReset _ s).
  destruct (mergeCache_frame s1) as (m & n & Hs2).
  pose proof (mergeCache_merged s1 Hf) as Hm.
  destruct (mergeCache s1) as [[] s2 out|e s2 out]; simpl in *; [|done].
  specialize (Hm eq_refl). rewrite publish_run.
  destruct (mMergedObject s2) as [merged|]; [|done].
  destruct (snapshot (mSubSpec s2) merged); [|done].
  intros _. subst s2. by destruct s.
Qed.

(** *** The retention policies *)

Lemma configBlind_bind {A B} (m : M A) (f : A -> M B) :
  configBlind m -> (∀ a, configBlind (f a)) -> configBlind (m ≫= f).
Proof.
  intros Hm Hf config s. rewrite !bind_run, Hm.
  destruct (m s) as [a s1 out1|]; simpl; [|done].
  rewrite Hf. by destruct (f a s1).
Qed.

Lemma configBlind_forEach {A} (l : list A) (body : A -> M unit) :
  (∀ x, configBlind (body x)) -> configBlind (forEach l body).
Proof.
  intros Hbody. induction l as [|x l IH]; simpl; [done|].
  by apply configBlind_bind.
Qed.

Lemma updateCache_configBlind ref : configBlind (updateCache ref).
Proof.
  intros config s. rewrite !updateCache_run. simpl.
  destruct (_ || _); [done|]. by destruct (extractObjectFrom ref).
Qed.

Lemma ingest_configBlind refs : configBlind (ingest refs).
Proof.
  apply configBlind_forEach. intros ref.
  apply configBlind_bind; [apply updateCache_configBlind|done].
Qed.

Lemma mergeEntry_configBlind merged entry : configBlind (mergeEntry merged entry).
Proof.
  intros config s.
  destruct merged; simpl;
    [unfold mergeTObjectEntry|unfold mergeInterfaceEntry|unfold mergeVectorEntry];
    rewrite !get_bind_run; simpl;
    repeat case_match; try reflexivity;
    unfold addObjectsMerged; by rewrite !modify_bind_run.
Qed.

Lemma mergeCache_configBlind : configBlind mergeCache.
Proof.
  intros config s. rewrite !mergeCache_run. simpl.
  destruct (mFirstObjectSerialized s).2 as [first|]; [|done].
  destruct (extractObjectFrom first) as [merged|]; [|done].
  exact (configBlind_forEach _ _ (mergeEntry_configBlind merged) config
           (set_mObjectsMerged (mObjectsMerged s + 1)
              (set_mMergedObject (Some merged) s))).
Qed.

Lemma publish_configBlind : configBlind publish.
Proof.
  intros config s. rewrite !publish_run. simpl.
  destruct (mMergedObject s) as [merged|]; [|done].
  by destruct (snapshot (mSubSpec s) merged).
Qed.

Lemma publishCycle_configBlind : configBlind publishCycle.
Proof.
  apply configBlind_bind; [done|]. intros _.
  apply configBlind_bind; [apply mergeCache_configBlind|].
  intros _. apply publish_configBlind.
Qed.

Lemma endOfStream_configBlind : configBlind endOfStream.
Proof.
  apply configBlind_bind; [apply mergeCache_configBlind|].
  intros _. apply publish_configBlind.
Qed.

(** What the steps other than the policy do to the configuration and to
    the cycle count. *)
Lemma updateCache_policy ref (s : State) :
  mConfig (stateOf (updateCache ref s)) = mConfig s ∧
  mSubSpec (stateOf (updateCache ref s)) = mSubSpec s ∧
  mCyclesSinceReset (stateOf (updateCache ref s)) = mCyclesSinceReset s.
Proof.
  rewrite updateCache_run. destruct (_ || _); [done|].
  by destruct (extractObjectFrom ref).
Qed.

Lemma mergeCache_policy (s : State) :
  mConfig (stateOf (mergeCache s)) = mConfig s ∧
  mSubSpec (stateOf (mergeCache s)) = mSubSpec s ∧
  mCyclesSinceReset (stateOf (mergeCache s)) = mCyclesSinceReset s.
Proof. by destruct (mergeCache_frame s) as (m & n & ->). Qed.

Lemma publish_policy (s : State) :
  mConfig (stateOf (publish s)) = mConfig s ∧
  mSubSpec (stateOf (publish s)) = mSubSpec s ∧
  mCyclesSinceReset (stateOf (publish s)) = mCyclesSinceReset s.
Proof.
  rewrite publish_run. destruct (mMergedObject s) as [merged|]; [|done].
  by destruct (snapshot (mSubSpec s) merged).
Qed.

Lemma endOfStream_policy (s : State) :
  mConfig (stateOf (endOfStream s)) = mConfig s ∧
  mSubSpec (stateOf (endOfStream s)) = mSubSpec s ∧
  mCyclesSinceReset (stateOf (endOfStream s)) = mCyclesSinceReset s.
Proof.
  unfold endOfStream. rewrite bind_run.
  destruct (mergeCache_policy s) as (Hc & Hs & Hn).
  destruct (mergeCache s) as [[] s1 out1|]; simpl in *; [|done].
  rewrite stateOf_prepend.
  destruct (publish_policy s1) as (Hc' & Hs' & Hn'). split_and!; congruence.
Qed.

Lemma publishCycle_policy (s : State) :
  returned (publishCycle s) = true ->
  mConfig (stateOf (publishCycle s)) = mConfig s ∧
  mSubSpec (stateOf (publishCycle s)) = mSubSpec s ∧
  mCyclesSinceReset (stateOf (publishCycle s)) = mCyclesSinceReset s + 1.
Proof.
  rewrite publishCycle_run.
  destruct (mergeCache_policy
    (set_mCyclesSinceReset (mCyclesSinceReset s + 1) s)) as (Hc & Hs & Hn).
  destruct (mergeCache _) as [[] s1 out1|]; simpl in *; [|done].
  intros _. destruct (publish_policy s1) as (Hc' & Hs' & Hn').
  split_and!; congruence.
Qed.

(** Under LastDifference a run that published ends with clear(). *)
Lemma run_lastDifference inputs (s : State) :
  mergedObjectTimespan_value (mConfig s) = LastDifference ->
  returned (run inputs s) = true ->
  snapshots (outputOf (run inputs s)) ≠ [] ->
  stateOf (run inputs s) = initState (mConfig s) (mSubSpec s).
Proof.
  intros Hv. rewrite run_run.
  destruct (ingest_frame (updates inputs) s) as (Hc1 & Hs1 & _).
  destruct (ingest (updates inputs) s) as [[] s1 out1|]; simpl in *; [|done].
  destruct (timerValid inputs && negb (isEmpty s1)); [|done].
  pose proof (publishCycle_policy s1) as Hp.
  destruct (publishCycle s1) as [[] s2 out2|]; simpl in *; [|done].
  intros _ _. destruct (Hp eq_refl) as (Hc2 & Hs2 & _).
  unfold mustClear. rewrite Hc2, Hc1, Hv. congruence.
Qed.


(** One operation under NCycles(1) and under LastDifference, from members
    that agree and a cycle count of zero. *)
Lemma perform_ncycles_1 (op : Operation InputSpec) (s : State) :
  mergedObjectTimespan_value (mConfig s) = LastDifference ->
  mCyclesSinceReset s = 0 ->
  perform op (withConfig (policyNCycles 1) s)
    = resWithConfig (policyNCycles 1) (perform op s) ∧
  (returned (perform op s) = true ->
   mergedObjectTimespan_value (mConfig (stateOf (perform op s))) = LastDifference ∧
   mCyclesSinceReset (stateOf (perform op s)) = 0).
Proof.
  intros Hv Hn. destruct op as [ref| | | |inputs|]; simpl.
  - split; [apply updateCache_configBlind|]. intros _.
    destruct (updateCache_policy ref s) as (-> & _ & ->). done.
  - split; [apply mergeCache_configBlind|]. intros _.
    destruct (mergeCache_policy s) as (-> & _ & ->). done.
  - split; [apply publish_configBlind|]. intros _.
    destruct (publish_policy s) as (-> & _ & ->). done.
  - done.
  - rewrite !run_run, ingest_configBlind.
    destruct (ingest_frame (updates inputs) s) as (Hc1 & _ & Hn1 & _).
    destruct (ingest (updates inputs) s) as [[] s1 out1|]; simpl in *; [|done].
    change (isEmpty (withConfig (policyNCycles 1) s1)) with (isEmpty s1).
    destruct (timerValid inputs && negb (isEmpty s1));
      [|split; [done|]; intros _; simpl; split; congruence].
    rewrite publishCycle_configBlind.
    pose proof (publishCycle_policy s1) as Hp.
    destruct (publishCycle s1) as [[] s2 out2|]; simpl in *; [|done].
    destruct (Hp eq_refl) as (Hc2 & Hs2 & Hn2).
    assert (HL : mustClear s2 = true).
    { unfold mustClear. by rewrite Hc2, Hc1, Hv. }
    assert (HN : mustClear (withConfig (policyNCycles 1) s2) = true).
    { unfold mustClear. simpl. apply bool_decide_true. lia. }
    rewrite HL, HN. simpl. split; [done|]. intros _. split; [congruence|done].
  - split; [apply endOfStream_configBlind|]. intros _.
    destruct (endOfStream_policy s) as (-> & _ & ->). done.
Qed.

Lemma performs_ncycles_1 (ops : list (Operation InputSpec)) (s : State) :
  mergedObjectTimespan_value (mConfig s) = LastDifference ->
  mCyclesSinceReset s = 0 ->
  forEach ops perform (withConfig (policyNCycles 1) s)
    = resWithConfig (policyNCycles 1) (forEach ops perform s).
Proof.
  revert s. induction ops as [|op ops IH]; intros s Hv Hn; simpl; [done|].
  rewrite !bind_run.
  destruct (perform_ncycles_1 op s Hv Hn) as [-> Hpost].
  destruct (perform op s) as [[] s1 out1|]; simpl in *; [|done].
  destruct (Hpost eq_refl) as [Hv1 Hn1].
  rewrite IH by done. by destruct (forEach ops perform s1).
Qed.

(** C9 (amended): under LastDifference every run that published ends with
    clear().  From the constructed state, any sequence of operations run
    until the first one that throws gives, under NCycles(1) and under
    LastDifference, the same output, the same outcome and the same members
    but the configuration itself, so the same five counters. *)
Theorem C9_last_difference_as_ncycles_1 (param : Z) (subSpec : N)
    (ops : list (Operation InputSpec)) :
  let lastDifference :=
    {| mergedObjectTimespan_value := LastDifference;
       mergedObjectTimespan_param := param |} in
  let underLD := forEach ops perform (initState lastDifference subSpec) in
  let underN1 := forEach ops perform (initState (policyNCycles 1) subSpec) in
  (∀ (s : State) inputs,
     mergedObjectTimespan_value (mConfig s) = LastDifference ->
     returned (run inputs s) = true ->
     snapshots (outputOf (run inputs s)) ≠ [] ->
     stateOf (run inputs s) = initState (mConfig s) (mSubSpec s)) ∧
  outputOf underN1 = outputOf underLD ∧
  returned underN1 = returned underLD ∧
  counters (stateOf underN1) = counters (stateOf underLD) ∧
  stateOf underN1 = withConfig (policyNCycles 1) (stateOf underLD).
Proof.
  intros lastDifference underLD underN1.
  split; [intros s inputs; apply run_lastDifference|].
  assert (H : underN1 = resWithConfig (policyNCycles 1) underLD).
  { apply (performs_ncycles_1 ops (initState lastDifference subSpec)); done. }
  rewrite H. by destruct underLD.
Qed.


(** *** Payloads that do not decode *)

Lemma ingest_cons ref refs (s : State) :
  ingest (ref :: refs) s =
  match updateCache ref s with
  | Done _ s1 _ => ingest refs (set_mUpdatesReceived (mUpdatesReceived s1 + 1) s1)
  | Raised e s1 _ => Raised e s1 []
  end.
Proof.
  unfold ingest. simpl. rewrite !bind_run.
  pose proof (updateCache_silent ref s) as Hs.
  destruct (updateCache ref s) as [[] s1 out1|]; simpl in Hs; subst; [|done].
  simpl. by rewrite !prepend_nil.
Qed.

(** C8 (amended): a payload that does not decode.  Bound for the cache (the
    template is set, from another source): updateCache throws to its caller
    and leaves the members as they were; run does not catch, so this
    invocation stops there, the remaining updates and the tick included.
    Bound for the template slot: it is stored undecoded and updateCache
    returns; it is the merges that follow that throw, before anything is
    published, for as long as this payload is the template. *)
Theorem C8_undecodable_payload (s : State) (ref : DataRef InputSpec) :
  extractObjectFrom ref = None ->
  if bool_decide ((mFirstObjectSerialized s).1 = ""%string)
     || bool_decide ((mFirstObjectSerialized s).1 = sourceID ref)
  then
    ∃ s', updateCache ref s = Done tt s' [] ∧
      mFirstObjectSerialized s' = (sourceID ref, Some ref) ∧
      mergeCache s' = Raised DecodeFailure s' [] ∧
      publishCycle s' =
        Raised DecodeFailure
          (set_mCyclesSinceReset (mCyclesSinceReset s' + 1) s') []
  else
    updateCache ref s = Raised DecodeFailure s [] ∧
    ∀ rest tick,
      run {| updates := ref :: rest; timerValid := tick |} s
        = Raised DecodeFailure s [].
Proof.
  intros Hbad.
  destruct (_ || _) eqn:Hslot.
  - eexists. split; [by rewrite updateCache_run, Hslot|].
    split; [done|].
    split; [by rewrite mergeCache_run; simpl; rewrite Hbad|].
    by rewrite publishCycle_run, mergeCache_run; simpl; rewrite Hbad.
  - assert (Hu : updateCache ref s = Raised DecodeFailure s []).
    { by rewrite updateCache_run, Hslot, Hbad. }
    split; [done|]. intros rest tick.
    by rewrite run_run; simpl; rewrite ingest_cons, Hu.
Qed.

(** *** Counting merged objects *)

Lemma mergeCollection_length (target other : list TObject) :
  length other = length target ->
  ∃ r, mergeCollection mergeTObject target other = Some r ∧
       length r = length target.
Proof.
  revert other. induction target as [|t target IH]; intros [|o other] Hlen;
    simpl in *; try done; [by exists []|].
  destruct (IH other) as (r & -> & Hr); [lia|].
  eexists. split; [done|]. simpl. lia.
Qed.

Lemma mergeVector_loop (l : list (string * @Object TObject MergeInterface))
    (s : State) (target : list TObject) :
  mMergedObject s = Some (VectorOfTObjectPtrs target) ->
  Forall (λ entry, ∃ w, entry.2 = VectorOfTObjectPtrs w ∧
                        length w = length target) l ->
  ∃ target', length target' = length target ∧
    forEach l mergeVectorEntry s =
      Done tt
        (set_mObjectsMerged
           (mObjectsMerged s + Z.of_nat (length l) * Z.of_nat (length target))
           (set_mMergedObject (Some (VectorOfTObjectPtrs target')) s)) [].
Proof.
  revert s target. induction l as [|[name entry] l IH]; intros s target Hm Hall.
  { exists target. split; [done|]. simpl. unfold mret, M_ret. f_equal.
    destruct s; unfold_setters. subst. f_equal. lia. }
  apply Forall_cons in Hall as [(w & Hw & Hlen) Hall]. simpl in Hw. subst entry.
  destruct (mergeCollection_length target w Hlen) as (r & Hr & Hlr).
  simpl. rewrite bind_run. unfold mergeVectorEntry at 1.
  rewrite get_bind_run, Hm. simpl. rewrite Hr, modify_bind_run.
  unfold addObjectsMerged, modify at 1. rewrite prepend_nil.
  destruct (IH (set_mObjectsMerged
                  (mObjectsMerged (set_mMergedObject
                     (Some (VectorOfTObjectPtrs r)) s) + Z.of_nat (length r))
                  (set_mMergedObject (Some (VectorOfTObjectPtrs r)) s)) r)
    as (target' & Hlt & ->); [done|by rewrite Hlr|].
  exists target'. split; [congruence|]. f_equal.
  destruct s; unfold_setters. f_equal. rewrite Hlr. lia.
Qed.

(** What mergeCache counts on collections.  Line 155 counts the freshly
    decoded template as one object before the kind is looked at, line 181
    counts each of the M cache entries, all of length N, by the length of
    the target: mObjectsMerged grows by 1 + M * N, and the merged object is a
    collection of length N. *)
Lemma mergeCache_collection_count (s : State) (first : DataRef InputSpec)
    (v : list TObject) :
  (mFirstObjectSerialized s).2 = Some first ->
  extractObjectFrom first = Some (VectorOfTObjectPtrs v) ->
  map_Forall (λ _ entry, ∃ w, entry = VectorOfTObjectPtrs w ∧
                              length w = length v) (mCache s) ->
  ∃ v', length v' = length v ∧
    mergeCache s =
      Done tt
        (set_mObjectsMerged
           (mObjectsMerged s + (1 + Z.of_nat (size (mCache s)) * Z.of_nat (length v)))
           (set_mMergedObject (Some (VectorOfTObjectPtrs v')) s)) [].
Proof.
  intros Hf Hx Hall. rewrite mergeCache_run, Hf, Hx. simpl.
  apply map_Forall_to_list in Hall.
  destruct (mergeVector_loop (map_to_list (mCache s))
              (set_mObjectsMerged (mObjectsMerged s + 1)
                 (set_mMergedObject (Some (VectorOfTObjectPtrs v)) s)) v)
    as (v' & Hlen & ->); [done| |].
  { eapply Forall_impl; [exact Hall|]. by intros [name entry]. }
  exists v'. split; [done|]. f_equal. rewrite length_map_to_list.
  destruct s; unfold_setters. f_equal. lia.
Qed.


Lemma mergeSingle_loop (merged : @Object TObject MergeInterface)
    (l : list (string * @Object TObject MergeInterface)) (s : State) :
  kindOf merged ≠ KVector ->
  (∃ target, mMergedObject s = Some target ∧ kindOf target = kindOf merged) ->
  Forall (λ entry, kindOf entry.2 = kindOf merged) l ->
  ∃ target', kindOf target' = kindOf merged ∧
    forEach l (mergeEntry merged) s =
      Done tt
        (set_mObjectsMerged (mObjectsMerged s + Z.of_nat (length l))
           (set_mMergedObject (Some target') s)) [].
Proof.
  intros Hk. revert s.
  induction l as [|[name entry] l IH]; intros s (target & Hm & Ht) Hall.
  { exists target. split; [done|]. simpl. unfold mret, M_ret. f_equal.
    destruct s; unfold_setters. subst. f_equal. lia. }
  apply Forall_cons in Hall as [He Hall]. simpl in He.
  simpl. rewrite bind_run.
  destruct merged as [o|m|v]; [| |done];
    destruct target as [ot|mt|vt]; try done;
    destruct entry as [oe|me|ve]; try done; simpl mergeEntry in *.
  - unfold mergeTObjectEntry at 1. rewrite get_bind_run, Hm. simpl.
    rewrite prepend_nil.
    destruct (IH (set_mObjectsMerged (mObjectsMerged s + 1)
                    (set_mMergedObject
                       (Some (TObjectPtr (mergeTObject ot oe))) s)))
      as (target' & Hk' & ->); [by eexists|done|].
    exists target'. split; [done|]. f_equal.
    destruct s; unfold_setters. f_equal. lia.
  - unfold mergeInterfaceEntry at 1. rewrite get_bind_run, Hm. simpl.
    rewrite prepend_nil.
    destruct (IH (set_mObjectsMerged (mObjectsMerged s + 1)
                    (set_mMergedObject
                       (Some (MergeInterfacePtr (mergeInterface mt me))) s)))
      as (target' & Hk' & ->); [by eexists|done|].
    exists target'. split; [done|]. f_equal.
    destruct s; unfold_setters. f_equal. lia.
Qed.

(** The first loop of run on updates from sources that are neither the
    template's nor in the cache yet: each one adds a cache entry. *)
Lemma ingest_distinct (k : Kind) (refs : list (DataRef InputSpec)) (s : State) :
  (mFirstObjectSerialized s).1 ≠ ""%string ->
  NoDup (sourceID <$> refs) ->
  Forall (λ ref, sourceID ref ≠ (mFirstObjectSerialized s).1 ∧
                 mCache s !! sourceID ref = None ∧
                 kindOf <$> extractObjectFrom ref = Some k) refs ->
  map_Forall (λ _ entry, kindOf entry = k) (mCache s) ->
  ∃ cache', size cache' = (size (mCache s) + length refs)%nat ∧
    map_Forall (λ _ entry, kindOf entry = k) cache' ∧
    ingest refs s =
      Done tt
        (set_mUpdatesReceived (mUpdatesReceived s + Z.of_nat (length refs))
           (set_mCache cache' s)) [].
Proof.
  revert s. induction refs as [|ref refs IH]; intros s Hne Hnd Hall Hkind.
  { exists (mCache s). split; [simpl; lia|]. split; [done|].
    unfold ingest. simpl. unfold mret, M_ret. f_equal.
    destruct s; unfold_setters. f_equal. lia. }
  apply Forall_cons in Hall as [(Hsid & Hfresh & Hk) Hall].
  rewrite fmap_cons in Hnd. apply NoDup_cons in Hnd as [Hnotin Hnd].
  destruct (extractObjectFrom ref) as [o|] eqn:Hx; [|done].
  simpl in Hk. injection Hk as Hk.
  rewrite ingest_cons, updateCache_run, Hx.
  rewrite (bool_decide_false _ Hne), bool_decide_false by done. simpl.
  edestruct (IH (set_mUpdatesReceived (mUpdatesReceived s + 1)
                   (set_mCache (<[sourceID ref:=o]> (mCache s)) s)))
    as (cache' & Hsize & Hkind' & ->); simpl; try done.
  - eapply Forall_impl; [apply Forall_and; split; [exact Hall|]|].
    + apply Forall_forall. intros ref' Hin. exact Hin.
    + simpl. intros ref' [(Hs' & Hf' & Hk') Hin]. split_and!; try done.
      rewrite lookup_insert_ne; [done|]. intros Heq. apply Hnotin.
      rewrite Heq. by apply list_elem_of_fmap_2.
  - by apply map_Forall_insert_2.
  - exists cache'. split.
    { rewrite Hsize. simpl. rewrite map_size_insert_None by done. lia. }
    split; [done|]. f_equal. destruct s; unfold_setters. f_equal. lia.
Qed.

Lemma reachable_empty config subSpec (s : State) :
  reachable config subSpec s ->
  isEmpty s = true ->
  s = initState (mConfig s) (mSubSpec s).
Proof.
  intros Hr He. apply bool_decide_eq_true in He.
  pose proof (reachable_storeInv _ _ _ Hr) as Hinv.
  destruct (inv_empty Hinv He) as (Hm & Hc & Hn).
  pose proof (proj1 (inv_first Hinv) He) as Hf.
  unfold counters in Hn. injection Hn as H1 H2 H3 H4 H5.
  destruct s as [? ? [src stored] ? ? ? ? ? ? ?]; simpl in *. by subst.
Qed.

Lemma one_update_per_source_init config subSpec (k : Kind)
    (refs : list (DataRef InputSpec)) :
  refs ≠ [] ->
  NoDup (sourceID <$> refs) ->
  k ≠ KVector ->
  Forall (λ ref, kindOf <$> extractObjectFrom ref = Some k) refs ->
  ∃ s1 s2 : State,
    ingest refs (initState config subSpec) = Done tt s1 [] ∧
    mUpdatesReceived s1 = Z.of_nat (length refs) ∧
    (modify (λ s, set_mCyclesSinceReset (mCyclesSinceReset s + 1) s);;
     mergeCache) s1 = Done tt s2 [] ∧
    mObjectsMerged s2 = Z.of_nat (length refs) ∧
    mUpdatesReceived s2 = Z.of_nat (length refs).
Proof.
  intros Hne Hnd Hk Hall.
  destruct refs as [|ref refs]; [done|]. clear Hne.
  apply Forall_cons in Hall as [Hkref Hall].
  rewrite fmap_cons in Hnd. apply NoDup_cons in Hnd as [Hnotin Hnd].
  destruct (extractObjectFrom ref) as [merged|] eqn:Hx; [|done].
  simpl in Hkref. injection Hkref as Hkref.
  pose proof (sourceID_nonempty ref) as Hsid.
  set (s0 := set_mFirstObjectSerialized (sourceID ref, Some ref)
               (initState config subSpec) : State).
  assert (Hu : updateCache ref (initState config subSpec) = Done tt s0 []).
  { by rewrite updateCache_run. }
  rewrite ingest_cons, Hu.
  edestruct (ingest_distinct k refs
    (set_mUpdatesReceived (mUpdatesReceived s0 + 1) s0))
    as (cache' & Hsize & Hkind & ->); simpl; try done.
  { eapply Forall_impl; [apply Forall_and; split; [exact Hall|]|].
    - apply Forall_forall. intros ref' Hin. exact Hin.
    - simpl. intros ref' [Hk' Hin]. split_and!; try done.
      intros Heq. apply Hnotin. rewrite <- Heq. by apply list_elem_of_fmap_2. }
  set (s1 := set_mUpdatesReceived _ (set_mCache cache' _)).
  assert (Hmerge : ∃ s2 : State,
    (modify (λ s, set_mCyclesSinceReset (mCyclesSinceReset s + 1) s);;
     mergeCache) s1 = Done tt s2 [] ∧
    mObjectsMerged s2 = Z.of_nat (length (ref :: refs)) ∧
    mUpdatesReceived s2 = Z.of_nat (length (ref :: refs))).
  { rewrite modify_bind_run, mergeCache_run. simpl. rewrite Hx.
    edestruct (mergeSingle_loop merged (map_to_list cache'))
      as (target' & _ & ->).
    - by rewrite Hkref.
    - by eexists.
    - apply map_Forall_to_list in Hkind.
      eapply Forall_impl; [exact Hkind|].
      intros [name entry]. simpl. congruence.
    - eexists. split; [reflexivity|]. simpl in *.
      rewrite length_map_to_list, Hsize, map_size_empty. split; lia. }
  destruct Hmerge as (s2 & Hm & Ho & Hu2).
  exists s1, s2. split_and!; try done. simpl. lia.
Qed.

(** C4: N >= 1 updates of one non-collection kind, from N distinct sources,
    arrive in a cycle that starts without template (a reachable state in
    which isEmpty holds).  The first source becomes the template and the
    others fill the cache; when the tick merges them, objectsMergedThisCycle
    is N (the template once and N - 1 cache entries) and
    updatesReceivedThisCycle is N. *)
Theorem C4_one_update_per_source config subSpec (s : State) (k : Kind)
    (refs : list (DataRef InputSpec)) :
  reachable config subSpec s ->
  isEmpty s = true ->
  refs ≠ [] ->
  NoDup (sourceID <$> refs) ->
  k ≠ KVector ->
  Forall (λ ref, kindOf <$> extractObjectFrom ref = Some k) refs ->
  ∃ s1 s2 : State,
    ingest refs s = Done tt s1 [] ∧
    mUpdatesReceived s1 = Z.of_nat (length refs) ∧
    (modify (λ s, set_mCyclesSinceReset (mCyclesSinceReset s + 1) s);;
     mergeCache) s1 = Done tt s2 [] ∧
    mObjectsMerged s2 = Z.of_nat (length refs) ∧
    mUpdatesReceived s2 = Z.of_nat (length refs).
Proof.
  intros Hr He. rewrite (reachable_empty _ _ _ Hr He).
  apply one_update_per_source_init.
Qed.


(** *** mergeCache as a fold over the cache *)

Abbreviation mergeStep := (mergeStep mergeTObject mergeInterface).
Abbreviation mergeFold := (mergeFold mergeTObject mergeInterface).

Lemma mergeEntry_step merged (entry : string * @Object TObject MergeInterface)
    (s : State) :
  mergeEntry merged entry s =
  match mergeStep merged (mMergedObject s) entry.2 with
  | inr (target', n) =>
      Done tt (set_mObjectsMerged (mObjectsMerged s + n)
                 (set_mMergedObject (Some target') s)) []
  | inl e => Raised e s []
  end.
Proof.
  destruct merged; simpl;
    [unfold mergeTObjectEntry|unfold mergeInterfaceEntry|unfold mergeVectorEntry];
    rewrite get_bind_run; repeat case_match; simplify_eq; try reflexivity;
    unfold addObjectsMerged; by rewrite modify_bind_run.
Qed.

Lemma forEach_mergeFold merged (l : list (string * @Object TObject MergeInterface))
    (s : State) :
  forEach l (mergeEntry merged) s =
  mergeResult (mergeFold merged (mMergedObject s) (mObjectsMerged s) l) s.
Proof.
  revert s. induction l as [|entry l IH]; intros s.
  { unfold mergeResult. simpl. unfold mret, M_ret. f_equal. by destruct s. }
  simpl. rewrite bind_run, mergeEntry_step.
  destruct (mergeStep merged (mMergedObject s) entry.2) as [e|[target' n]].
  { unfold mergeResult. simpl. f_equal. by destruct s. }
  rewrite prepend_nil, IH. simpl.
  unfold mergeResult. destruct (mergeFold _ _ _ l) as [[t c] [e|]]; simpl;
    f_equal; by destruct s.
Qed.

Lemma mergeCache_fold (s : State) :
  mergeCache s =
  match (mFirstObjectSerialized s).2 with
  | None => Done tt s []
  | Some first =>
      match extractObjectFrom first with
      | None => Raised DecodeFailure s []
      | Some merged =>
          mergeResult (mergeFold merged (Some merged) (mObjectsMerged s + 1)
                         (map_to_list (mCache s))) s
      end
  end.
Proof.
  rewrite mergeCache_run.
  destruct (mFirstObjectSerialized s).2 as [first|]; [|done].
  destruct (extractObjectFrom first) as [merged|]; [|done].
  rewrite forEach_mergeFold. simpl.
  unfold mergeResult. destruct (mergeFold _ _ _ _) as [[t c] [e|]]; simpl;
    f_equal; by destruct s.
Qed.

(** The count only adds up: the loop started at another count ends the same
    way, shifted by the difference. *)
Lemma mergeFold_count merged target (count : Z)
    (l : list (string * @Object TObject MergeInterface)) :
  mergeFold merged target count l =
  ((mergeFold merged target 0 l).1.1,
   count + (mergeFold merged target 0 l).1.2,
   (mergeFold merged target 0 l).2).
Proof.
  revert target count. induction l as [|entry l IH]; intros target count; simpl.
  { f_equal. f_equal. lia. }
  destruct (mergeStep merged target entry.2) as [e|[target' n]]; simpl.
  { f_equal. f_equal. lia. }
  rewrite (IH (Some target') (count + n)), (IH (Some target') (0 + n)). simpl.
  f_equal. f_equal. lia.
Qed.

Lemma mergeFold_count_le merged target (count : Z)
    (l : list (string * @Object TObject MergeInterface)) :
  count <= (mergeFold merged target count l).1.2.
Proof.
  revert target count. induction l as [|entry l IH]; intros target count; simpl;
    [lia|].
  destruct (mergeStep merged target entry.2) as [e|[target' n]] eqn:Hstep;
    simpl; [lia|].
  assert (0 <= n).
  { unfold mergeStep in Hstep. repeat case_match; simplify_eq; lia. }
  specialize (IH (Some target') (count + n)). lia.
Qed.

Lemma mergeFold_tobjects merged (t : TObject) (count : Z)
    (l : list (string * @Object TObject MergeInterface)) :
  kindOf merged = KTObject ->
  Forall (λ entry, kindOf entry.2 = KTObject) l ->
  mergeFold merged (Some (TObjectPtr t)) count l =
  (Some (TObjectPtr (foldl mergeTObject t (tobjectsOf l))),
   count + Z.of_nat (length l), None).
Proof.
  intros Hk. revert t count.
  induction l as [|[name entry] l IH]; intros t count Hall; simpl.
  { f_equal. f_equal. lia. }
  apply Forall_cons in Hall as [He Hall]. simpl in He.
  destruct merged as [om| |]; try done. destruct entry as [oe| |]; try done.
  simpl.
  rewrite IH by done. f_equal. f_equal. lia.
Qed.


Lemma tobjectsOf_length (l : list (string * @Object TObject MergeInterface)) :
  Forall (λ entry, kindOf entry.2 = KTObject) l ->
  length (tobjectsOf l) = length l.
Proof.
  induction 1 as [|[name entry] l He _ IH]; [done|].
  destruct entry; try done. simpl. by rewrite IH.
Qed.

Lemma cache_entries_kind (k : Kind) (m : gmap string (@Object TObject MergeInterface)) :
  map_Forall (λ _ entry, kindOf entry = k) m ->
  Forall (λ entry : string * @Object TObject MergeInterface, kindOf entry.2 = k)
         (map_to_list m).
Proof.
  intros Hall. apply map_Forall_to_list in Hall.
  eapply Forall_impl; [exact Hall|]. by intros [name entry].
Qed.

(** X6: a merge of TObjects.  When the template decodes to a TObject and the
    cache holds TObjects only, mergeCache returns, the merged object is the
    template combined in turn with every cache entry, each one once, and one
    object is counted for the template and one for each entry. *)
Theorem X6_merge_folds_the_cache (s : State) (first : DataRef InputSpec)
    (t : TObject) :
  (mFirstObjectSerialized s).2 = Some first ->
  extractObjectFrom first = Some (TObjectPtr t) ->
  map_Forall (λ _ entry, kindOf entry = KTObject) (mCache s) ->
  length (tobjectsOf (map_to_list (mCache s))) = size (mCache s) ∧
  mergeCache s =
    Done tt
      (set_mObjectsMerged (mObjectsMerged s + 1 + Z.of_nat (size (mCache s)))
         (set_mMergedObject
            (Some (TObjectPtr
                     (foldl mergeTObject t (tobjectsOf (map_to_list (mCache s))))))
            s)) [].
Proof.
  intros Hf Hx Hall. apply cache_entries_kind in Hall.
  split; [by rewrite tobjectsOf_length, length_map_to_list|].
  rewrite mergeCache_fold, Hf, Hx, mergeFold_tobjects by done.
  by rewrite length_map_to_list.
Qed.

(** X7: a merge can be repeated.  mergeCache starts from the stored template
    every time, not from the previous merged object: a second merge with no
    update in between leaves the same merged object, ends the same way and
    counts as many objects again; neither merge touches the template or the
    cache. *)
Theorem X7_merge_is_repeatable (s : State) :
  let r1 := mergeCache s in
  let r2 := mergeCache (stateOf r1) in
  mMergedObject (stateOf r2) = mMergedObject (stateOf r1) ∧
  returned r2 = returned r1 ∧
  mObjectsMerged (stateOf r2) - mObjectsMerged (stateOf r1)
    = mObjectsMerged (stateOf r1) - mObjectsMerged s ∧
  mFirstObjectSerialized (stateOf r2) = mFirstObjectSerialized s ∧
  mCache (stateOf r2) = mCache s.
Proof.
  intros r1 r2. subst r1 r2. rewrite (mergeCache_fold s).
  destruct (mFirstObjectSerialized s).2 as [first|] eqn:Hf.
  2:{ simpl. rewrite mergeCache_fold, Hf. simpl. split_and!; try done; lia. }
  destruct (extractObjectFrom first) as [merged|] eqn:Hx.
  2:{ simpl. rewrite mergeCache_fold, Hf, Hx. simpl. split_and!; try done; lia. }
  set (l := map_to_list (mCache s)).
  rewrite (mergeFold_count merged (Some merged) (mObjectsMerged s + 1) l).
  assert (Hstate : ∀ r, stateOf (mergeResult r s)
            = set_mObjectsMerged r.1.2 (set_mMergedObject r.1.1 s)).
  { intros [[t c] [e|]]; done. }
  rewrite Hstate. simpl.
  rewrite mergeCache_fold. simpl. rewrite Hf, Hx. fold l.
  rewrite (mergeFold_count merged (Some merged) _ l).
  unfold mergeResult.
  destruct (mergeFold merged (Some merged) 0 l) as [[t c] [e|]]; simpl;
    split_and!; try done; lia.
Qed.

Lemma mergeFold_mismatch merged target (count : Z)
    (l : list (string * @Object TObject MergeInterface)) :
  kindOf target = kindOf merged ->
  Exists (λ entry, kindOf entry.2 ≠ kindOf merged) l ->
  ∃ e, (mergeFold merged (Some target) count l).2 = Some e ∧
       (e = BadVariantAccess ∨ (kindOf merged = KVector ∧ e = LengthMismatch)).
Proof.
  revert target count.
  induction l as [|[name entry] l IH]; intros target count Hk Hex;
    [by apply Exists_nil in Hex|].
  simpl.
  destruct (mergeStep merged (Some target) entry) as [e|[target' n]] eqn:Hstep.
  { exists e. split; [done|]. unfold mergeStep in Hstep.
    repeat case_match; simplify_eq; auto. }
  apply Exists_cons in Hex as [Hbad|Hex].
  { simpl in Hbad. unfold mergeStep in Hstep.
    repeat case_match; simplify_eq; done. }
  apply IH; [|done]. unfold mergeStep in Hstep.
  repeat case_match; simplify_eq; done.
Qed.

Lemma mergeCache_mismatch (s : State) (first : DataRef InputSpec) merged key entry :
  (mFirstObjectSerialized s).2 = Some first ->
  extractObjectFrom first = Some merged ->
  mCache s !! key = Some entry ->
  kindOf entry ≠ kindOf merged ->
  ∃ e s', mergeCache s = Raised e s' [] ∧
    (e = BadVariantAccess ∨ (kindOf merged = KVector ∧ e = LengthMismatch)).
Proof.
  intros Hf Hx Hkey Hbad. rewrite mergeCache_fold, Hf, Hx.
  destruct (mergeFold_mismatch merged merged (mObjectsMerged s + 1)
              (map_to_list (mCache s))) as (e & He & Hor); [done| |].
  { apply Exists_exists. exists (key, entry). split; [|done].
    by apply elem_of_map_to_list. }
  unfold mergeResult. rewrite He. by eexists _, _.
Qed.

(** X8: kinds must agree.  When a cache entry is of another kind than the
    template, mergeCache throws (std::bad_variant_access, or the refusal of a
    collection merge met before it when the template is a collection); the
    entry is not skipped, and the tick's cycle publishes nothing. *)
Theorem X8_kind_mismatch_throws (s : State) (first : DataRef InputSpec)
    merged key entry :
  (mFirstObjectSerialized s).2 = Some first ->
  extractObjectFrom first = Some merged ->
  mCache s !! key = Some entry ->
  kindOf entry ≠ kindOf merged ->
  (∃ e s', mergeCache s = Raised e s' [] ∧
     (e = BadVariantAccess ∨ (kindOf merged = KVector ∧ e = LengthMismatch))) ∧
  returned (publishCycle s) = false ∧
  outputOf (publishCycle s) = [].
Proof.
  intros Hf Hx Hkey Hbad.
  split; [by eapply mergeCache_mismatch|].
  rewrite publishCycle_run.
  destruct (mergeCache_mismatch
              (set_mCyclesSinceReset (mCyclesSinceReset s + 1) s)
              first merged key entry) as (e & s' & -> & _); done.
Qed.

Lemma foldl_right_commutative {A B} (f : A -> B -> A) (l l' : list B) :
  (∀ a b c, f (f a b) c = f (f a c) b) ->
  l ≡ₚ l' -> ∀ a, foldl f a l = foldl f a l'.
Proof.
  intros Hf. induction 1 as [|x l l' _ IH|x y l|l1 l2 l3 _ IH1 _ IH2];
    intros a; simpl; [done|apply IH|by rewrite Hf|].
  by rewrite IH1, IH2.
Qed.

(** X9: the order of the cache does not matter to a merge that commutes.
    The cache is an unordered map; when merging b then c into a TObject gives
    what merging c then b gives, mergeCache is the template step followed by
    the loop over the entries in any order whatsoever. *)
Theorem X9_merge_order_irrelevant (s : State) (first : DataRef InputSpec)
    (t : TObject) (l' : list (string * @Object TObject MergeInterface)) :
  (∀ a b c, mergeTObject (mergeTObject a b) c = mergeTObject (mergeTObject a c) b) ->
  (mFirstObjectSerialized s).2 = Some first ->
  extractObjectFrom first = Some (TObjectPtr t) ->
  map_Forall (λ _ entry, kindOf entry = KTObject) (mCache s) ->
  l' ≡ₚ map_to_list (mCache s) ->
  mergeCache s =
    forEach l' mergeTObjectEntry
      (set_mObjectsMerged (mObjectsMerged s + 1)
         (set_mMergedObject (Some (TObjectPtr t)) s)).
Proof.
  intros Hcomm Hf Hx Hall Hperm. apply cache_entries_kind in Hall.
  rewrite mergeCache_fold, Hf, Hx.
  change mergeTObjectEntry with (mergeEntry (TObjectPtr t)).
  rewrite forEach_mergeFold. simpl.
  assert (Hall' : Forall (λ entry : string * @Object TObject MergeInterface,
                            kindOf entry.2 = KTObject) l').
  { by rewrite Hperm. }
  rewrite !mergeFold_tobjects by done.
  assert (Hobjs : tobjectsOf l' ≡ₚ tobjectsOf (map_to_list (mCache s))).
  { unfold tobjectsOf. by rewrite Hperm. }
  rewrite (foldl_right_commutative mergeTObject _ _ Hcomm Hobjs t).
  assert (Hlen : length l' = length (map_to_list (mCache s))) by by rewrite Hperm.
  rewrite Hlen. unfold mergeResult. simpl. f_equal; by destruct s.
Qed.


(** *** What each function leaves alone *)

#[local] Instance sameOn_preorder {B} (f : State -> B) : PreOrder (sameOn f).
Proof.
  split; [by intros s|].
  intros s1 s2 s3 H12 H23. unfold sameOn in *. congruence.
Qed.

Lemma updateCache_beyond ref : establishes (sameOn beyondIngest) (updateCache ref).
Proof.
  intros s. rewrite updateCache_run. destruct (_ || _); [done|].
  by destruct (extractObjectFrom ref).
Qed.

Lemma ingest_beyond refs : establishes (sameOn beyondIngest) (ingest refs).
Proof.
  apply (establishes_forEach (sameOn beyondIngest)). intros ref.
  apply establishes_bind; [apply _|apply updateCache_beyond|done].
Qed.

Lemma mergeCache_beyond : establishes (sameOn beyondMerge) mergeCache.
Proof. intros s. by destruct (mergeCache_frame s) as (m & n & ->). Qed.

Lemma publish_beyond : establishes (sameOn beyondPublish) publish.
Proof.
  intros s. rewrite publish_run. destruct (mMergedObject s) as [merged|]; [|done].
  by destruct (snapshot (mSubSpec s) merged).
Qed.

Lemma endOfStream_beyond : establishes (sameOn beyondEndOfStream) endOfStream.
Proof.
  intros s. unfold endOfStream. rewrite bind_run.
  pose proof (mergeCache_beyond s) as Hm.
  destruct (mergeCache s) as [[] s1 out1|]; simpl in *.
  - rewrite stateOf_prepend. pose proof (publish_beyond s1) as Hp.
    unfold sameOn, beyondMerge, beyondPublish, beyondEndOfStream in *.
    simplify_eq. congruence.
  - unfold sameOn, beyondMerge, beyondEndOfStream in *. simplify_eq. congruence.
Qed.

Lemma ingest_updates refs (s : State) :
  returned (ingest refs s) = true ->
  mUpdatesReceived (stateOf (ingest refs s))
    = mUpdatesReceived s + Z.of_nat (length refs).
Proof.
  revert s. induction refs as [|ref refs IH]; intros s.
  { intros _. simpl. lia. }
  rewrite ingest_cons, updateCache_run.
  destruct (_ || _).
  { intros Hret. rewrite IH by done. simpl. lia. }
  destruct (extractObjectFrom ref); [|done].
  intros Hret. rewrite IH by done. simpl. lia.
Qed.

Lemma mergeCache_count_le (s : State) :
  mObjectsMerged s <= mObjectsMerged (stateOf (mergeCache s)) ∧
  ((mFirstObjectSerialized s).2 ≠ None -> returned (mergeCache s) = true ->
   mObjectsMerged s + 1 <= mObjectsMerged (stateOf (mergeCache s))).
Proof.
  rewrite mergeCache_fold.
  destruct (mFirstObjectSerialized s).2 as [first|]; [|by split; [simpl; lia|]].
  destruct (extractObjectFrom first) as [merged|]; [|by split; [simpl; lia|]].
  pose proof (mergeFold_count_le merged (Some merged) (mObjectsMerged s + 1)
                (map_to_list (mCache s))) as Hle.
  unfold mergeResult.
  destruct (mergeFold _ _ _ _) as [[t c] [e|]]; simpl in *; split; try lia;
    intros; lia.
Qed.




(** X2: when run emits nothing.  If a run emits anything at all, it had a
    tick, it returned, and there was a template or an update: a run without
    tick, a run that throws, and a tick on an instance that has received
    nothing since the last reset emit neither object nor metrics. *)
Theorem X2_run_output_only_when_published (s : State) inputs :
  outputOf (run inputs s) ≠ [] ->
  returned (run inputs s) = true ∧
  timerValid inputs = true ∧
  (isEmpty s = false ∨ updates inputs ≠ []).
Proof.
  rewrite run_run.
  destruct (ingest (updates inputs) s) as [[] s1 out1|] eqn:Hi; simpl; [|done].
  destruct (timerValid inputs) eqn:Htick; simpl; [|done].
  destruct (isEmpty s1) eqn:He1; simpl; [done|].
  rewrite publishCycle_run.
  pose proof (mergeCache_silent
    (set_mCyclesSinceReset (mCyclesSinceReset s1 + 1) s1)) as Hs.
  destruct (mergeCache _) as [[] s2 out2|]; simpl in Hs; subst; simpl; [|done].
  rewrite publish_run.
  assert (Hor : isEmpty s = false ∨ updates inputs ≠ []).
  { destruct (updates inputs) as [|ref refs]; [|by right].
    left. unfold ingest in Hi. simpl in Hi. by injection Hi as ->. }
  destruct (mMergedObject s2) as [merged|]; [|done].
  destruct (snapshot (mSubSpec s2) merged); done.
Qed.

(** X3: endOfStream on an instance that holds a template.  When it returns
    it has emitted the merged object and the five metrics, the cycle count
    reported being the current one; it leaves the template, the cache, the
    cycle count and the configuration as they were: it neither counts a cycle
    nor resets, whatever the retention policy. *)
Theorem X3_endOfStream_publishes_and_keeps config subSpec (s : State) :
  reachable config subSpec s ->
  isEmpty s = false ->
  returned (endOfStream s) = true ->
  beyondEndOfStream (stateOf (endOfStream s)) = beyondEndOfStream s ∧
  isEmpty (stateOf (endOfStream s)) = false ∧
  ∃ merged objects,
    mMergedObject (stateOf (endOfStream s)) = Some merged ∧
    mObjectsMerged s + 1 <= objects ∧
    outputOf (endOfStream s)
      = publication s merged objects (mUpdatesReceived s) (mCyclesSinceReset s).
Proof.
  intros Hr He Hret. apply reachable_storeInv in Hr as Hinv.
  apply bool_decide_eq_false in He.
  pose proof (storeInv_template s Hinv He) as Hf.
  pose proof (endOfStream_beyond s) as Hb. split; [exact Hb|].
  split.
  { unfold isEmpty. apply bool_decide_false.
    unfold sameOn, beyondEndOfStream in Hb. simplify_eq. congruence. }
  revert Hret. unfold endOfStream. rewrite bind_run.
  pose proof (mergeCache_beyond s) as Hbm.
  pose proof (mergeCache_merged s Hf) as Hm.
  pose proof (mergeCache_silent s) as Hsil.
  destruct (mergeCache_count_le s) as [_ Hle]. specialize (Hle Hf).
  destruct (mergeCache s) as [[] s1 out1|]; simpl in *; [|done].
  subst out1. rewrite prepend_nil.
  specialize (Hm eq_refl). specialize (Hle eq_refl).
  rewrite publish_run.
  destruct (mMergedObject s1) as [merged|] eqn:Hmerged; [|done].
  destruct (snapshot (mSubSpec s1) merged); [|done].
  intros _. exists merged, (mObjectsMerged s1). split; [done|]. split; [done|].
  unfold sameOn, beyondMerge in Hbm. simpl in Hbm. simplify_eq.
  simpl. unfold publication, metricsOf. congruence.
Qed.


(** X4: an update touches the slot of its own source only.  Whatever updates
    the first loop of run goes through, and whether it returns or throws, the
    cache entry of any other source is what it was, and so is the template
    when it comes from another source. *)
Theorem X4_ingest_leaves_other_sources (refs : list (DataRef InputSpec))
    (s : State) (source : string) :
  source ∉ sourceID <$> refs ->
  mCache (stateOf (ingest refs s)) !! source = mCache s !! source ∧
  ((mFirstObjectSerialized s).1 = source -> source ≠ ""%string ->
   mFirstObjectSerialized (stateOf (ingest refs s)) = mFirstObjectSerialized s).
Proof.
  revert s. induction refs as [|ref refs IH]; intros s Hnotin; [done|].
  rewrite fmap_cons in Hnotin. apply not_elem_of_cons in Hnotin as [Hne Hnotin].
  rewrite ingest_cons, updateCache_run.
  destruct (bool_decide ((mFirstObjectSerialized s).1 = ""%string)) eqn:He; simpl.
  { apply bool_decide_eq_true in He.
    destruct (IH (set_mUpdatesReceived
                    (mUpdatesReceived
                       (set_mFirstObjectSerialized (sourceID ref, Some ref) s) + 1)
                    (set_mFirstObjectSerialized (sourceID ref, Some ref) s))
                Hnotin) as [Hc _].
    split; [exact Hc|]. congruence. }
  destruct (bool_decide ((mFirstObjectSerialized s).1 = sourceID ref)) eqn:Hs;
    simpl.
  { apply bool_decide_eq_true in Hs.
    destruct (IH (set_mUpdatesReceived
                    (mUpdatesReceived
                       (set_mFirstObjectSerialized (sourceID ref, Some ref) s) + 1)
                    (set_mFirstObjectSerialized (sourceID ref, Some ref) s))
                Hnotin) as [Hc _].
    split; [exact Hc|]. congruence. }
  destruct (extractObjectFrom ref) as [o|]; [|done].
  destruct (IH (set_mUpdatesReceived
                  (mUpdatesReceived
                     (set_mCache (<[sourceID ref:=o]> (mCache s)) s) + 1)
                  (set_mCache (<[sourceID ref:=o]> (mCache s)) s))
              Hnotin) as [Hc Hf].
  split.
  - rewrite Hc. simpl. by apply lookup_insert_ne.
  - intros H1 H2. by rewrite Hf.
Qed.

#[local] Set Warnings "-clear-no-such-hyp".

Lemma updateCache_sources ref (s : State) :
  returned (updateCache ref s) = true ->
  sources (stateOf (updateCache ref s)) = sources s ∪ {[ sourceID ref ]}.
Proof.
  rewrite updateCache_run. pose proof (sourceID_nonempty ref) as Hsid.
  unfold sources.
  destruct (bool_decide ((mFirstObjectSerialized s).1 = ""%string)) eqn:He; simpl.
  { intros _. rewrite bool_decide_false by done. set_solver. }
  destruct (bool_decide ((mFirstObjectSerialized s).1 = sourceID ref)) eqn:Hs;
    simpl.
  { apply bool_decide_eq_true in Hs. intros _.
    rewrite bool_decide_false by done. rewrite Hs. set_solver. }
  destruct (extractObjectFrom ref) as [o|]; [|done]. simpl. intros _.
  rewrite He, dom_insert_L. set_solver.
Qed.

(** X5: the store holds one slot per source.  After the first loop of run
    has returned, the sources held (the template's and the cache keys) are
    those held before and those of the updates, however often a source sent;
    updatesReceived has grown by the number of updates, repeated ones
    included. *)
Theorem X5_ingest_tracks_sources (refs : list (DataRef InputSpec)) (s : State) :
  returned (ingest refs s) = true ->
  sources (stateOf (ingest refs s))
    = sources s ∪ list_to_set (sourceID <$> refs) ∧
  mUpdatesReceived (stateOf (ingest refs s))
    = mUpdatesReceived s + Z.of_nat (length refs).
Proof.
  intros Hret. split; [|by apply ingest_updates].
  revert s Hret. induction refs as [|ref refs IH]; intros s.
  { intros _. simpl. set_solver. }
  rewrite ingest_cons.
  pose proof (updateCache_sources ref s) as Hsrc.
  destruct (updateCache ref s) as [[] s1 out1|]; simpl in *; [|done].
  intros Hret. rewrite IH by done.
  change (sources (set_mUpdatesReceived (mUpdatesReceived s1 + 1) s1))
    with (sources s1).
  rewrite Hsrc by done. set_solver.
Qed.

Lemma publishCycle_beyond (s : State) :
  mFirstObjectSerialized (stateOf (publishCycle s)) = mFirstObjectSerialized s ∧
  mCache (stateOf (publishCycle s)) = mCache s.
Proof.
  rewrite publishCycle_run.
  pose proof (mergeCache_beyond
    (set_mCyclesSinceReset (mCyclesSinceReset s + 1) s)) as Hm.
  destruct (mergeCache _) as [[] s1 out1|]; simpl in *.
  - pose proof (publish_beyond s1) as Hp.
    unfold sameOn, beyondMerge, beyondPublish in *. simpl in *.
    simplify_eq. split; congruence.
  - unfold sameOn, beyondMerge in *. simpl in *. simplify_eq. split; congruence.
Qed.

(** X10: NCycles clears on equality only.  Once cyclesSinceReset has reached
    the parameter (a parameter that is zero or negative, or a cycle whose
    merge or publish threw after it was counted), a run that publishes counts
    one more cycle and keeps the template: the policy does not clear. *)
Theorem X10_ncycles_past_parameter_keeps_history (s : State) inputs :
  mergedObjectTimespan_value (mConfig s) = NCycles ->
  mergedObjectTimespan_param (mConfig s) <= mCyclesSinceReset s ->
  returned (run inputs s) = true ->
  outputOf (run inputs s) ≠ [] ->
  mCyclesSinceReset (stateOf (run inputs s)) = mCyclesSinceReset s + 1 ∧
  isEmpty (stateOf (run inputs s)) = false ∧
  mConfig (stateOf (run inputs s)) = mConfig s.
Proof.
  intros Hv Hp. rewrite run_run.
  pose proof (ingest_beyond (updates inputs) s) as Hb.
  destruct (ingest (updates inputs) s) as [[] s1 out1|]; simpl in *; [|done].
  destruct (timerValid inputs && negb (isEmpty s1)) eqn:Hc; [|done].
  apply andb_true_iff in Hc as [_ Hne]. apply negb_true_iff in Hne.
  pose proof (publishCycle_policy s1) as Hpol.
  destruct (publishCycle_beyond s1) as [Hf _].
  destruct (publishCycle s1) as [[] s2 out2|]; simpl in *; [|done].
  intros _ _. destruct (Hpol eq_refl) as (Hc2 & Hs2 & Hn2).
  unfold sameOn, beyondIngest in Hb. simplify_eq.
  assert (Hkeep : mustClear s2 = false).
  { unfold mustClear. rewrite Hc2. replace (mConfig s1) with (mConfig s) by done.
    rewrite Hv. apply bool_decide_false. lia. }
  rewrite Hkeep. split_and!; [lia| |congruence].
  unfold isEmpty in *. by rewrite Hf.
Qed.

(** X11: the template slot belongs to the first source until the next
    clear().  Whatever operation is performed on an instance that holds a
    template, and whether it returns or throws, either the template's source
    is the same afterwards or the instance is in the just-reset state. *)
Theorem X11_template_source_until_clear (op : Operation InputSpec) (s : State) :
  (mFirstObjectSerialized s).1 ≠ ""%string ->
  (mFirstObjectSerialized (stateOf (perform op s))).1
    = (mFirstObjectSerialized s).1 ∨
  stateOf (perform op s) = initState (mConfig s) (mSubSpec s).
Proof.
  intros Hne. destruct op as [ref| | | |inputs|]; simpl.
  - left. rewrite updateCache_run, bool_decide_false by done. simpl.
    destruct (bool_decide _) eqn:Hs; simpl.
    + by apply bool_decide_eq_true in Hs.
    + by destruct (extractObjectFrom ref).
  - left. pose proof (mergeCache_beyond s) as Hb.
    unfold sameOn, beyondMerge in Hb. simplify_eq. congruence.
  - left. pose proof (publish_beyond s) as Hb.
    unfold sameOn, beyondPublish in Hb. simplify_eq. congruence.
  - by right.
  - rewrite run_run.
    destruct (ingest_frame (updates inputs) s) as (Hc1 & Hs1 & _ & Hf1).
    specialize (Hf1 Hne).
    destruct (ingest (updates inputs) s) as [[] s1 out1|]; simpl in *;
      [|by left].
    destruct (timerValid inputs && negb (isEmpty s1)); [|by left].
    pose proof (publishCycle_policy s1) as Hpol.
    destruct (publishCycle_beyond s1) as [Hf2 _].
    destruct (publishCycle s1) as [[] s2 out2|]; simpl in *;
      [|left; congruence].
    destruct (Hpol eq_refl) as (Hc2 & Hs2 & _).
    destruct (mustClear s2); [right|left]; congruence.
  - left. pose proof (endOfStream_beyond s) as Hb.
    unfold sameOn, beyondEndOfStream in Hb. simplify_eq. congruence.
Qed.


(** *** NCycles over any sequence of invocations *)

Lemma forEach_one {A} (body : A -> M unit) (x : A) (s : State) :
  forEach [x] body s = body x s.
Proof.
  simpl. rewrite bind_run. destruct (body x s) as [[] s1 out1|]; [|done].
  simpl. by rewrite app_nil_r.
Qed.

(** One invocation of run under NCycles(k), with [c] < k cycles counted and
    the template in place if c > 0: it publishes once if it has a tick and
    the first loop leaves a template, and not at all otherwise; the cycle
    count follows the publications modulo k, and the publication that brings
    it to k ends in the just-reset state. *)
Lemma run_ncycles_step (k c : nat) inputs (s : State) :
  mergedObjectTimespan_value (mConfig s) = NCycles ->
  mergedObjectTimespan_param (mConfig s) = Z.of_nat k ->
  storeInv s ->
  mCyclesSinceReset s = Z.of_nat c ->
  (c < k)%nat ->
  (c ≠ 0%nat -> (mFirstObjectSerialized s).1 ≠ ""%string) ->
  returned (run inputs s) = true ->
  ∃ m : nat,
    length (snapshots (outputOf (run inputs s))) = m ∧ (m <= 1)%nat ∧
    storeInv (stateOf (run inputs s)) ∧
    mConfig (stateOf (run inputs s)) = mConfig s ∧
    mSubSpec (stateOf (run inputs s)) = mSubSpec s ∧
    mCyclesSinceReset (stateOf (run inputs s)) = Z.of_nat ((c + m) mod k) ∧
    (((c + m) mod k)%nat ≠ 0%nat ->
     (mFirstObjectSerialized (stateOf (run inputs s))).1 ≠ ""%string) ∧
    (m ≠ 0%nat -> ((c + m) mod k)%nat = 0%nat ->
     stateOf (run inputs s) = initState (mConfig s) (mSubSpec s)) ∧
    m = (if timerValid inputs
            && negb (isEmpty (stateOf (ingest (updates inputs) s)))
         then 1%nat else 0%nat).
Proof.
  intros Hv Hp Hinv Hn Hlt Hne. rewrite run_run.
  pose proof (ingest_storeInv (updates inputs) s Hinv) as Hinv1.
  destruct (ingest_frame (updates inputs) s) as (Hc1 & Hs1 & Hn1 & Hf1).
  destruct (ingest (updates inputs) s) as [[] s1 out1|]; simpl in *; [|done].
  destruct (timerValid inputs && negb (isEmpty s1)) eqn:Hcond.
  2:{ intros _. exists 0%nat. rewrite Nat.add_0_r, Nat.mod_small by done.
      simpl. split_and!; try done; try lia; try congruence.
      intros Hc. rewrite Hf1; auto. }
  apply andb_true_iff in Hcond as [_ Hne1].
  apply negb_true_iff, bool_decide_eq_false in Hne1.
  pose proof (publishCycle_storeInv s1 Hne1 Hinv1) as Hinv2.
  pose proof (publishCycle_spec s1 (storeInv_template s1 Hinv1 Hne1)) as Hspec.
  destruct (publishCycle s1) as [[] s2 out2|]; simpl in *; [|done].
  intros _. destruct (Hspec eq_refl) as (Hc2 & Hs2 & Hn2 & Hf2 & Hout).
  exists 1%nat. split; [done|]. split; [lia|].
  destruct (decide (c + 1 = k)%nat) as [Hk|Hk].
  - assert (Hclear : mustClear s2 = true).
    { unfold mustClear. rewrite Hc2, Hc1, Hv, Hp. apply bool_decide_true. lia. }
    rewrite Hclear, Hk, Nat.Div0.mod_same.
    split_and!; try done; simpl; congruence.
  - assert (Hkeep : mustClear s2 = false).
    { unfold mustClear. rewrite Hc2, Hc1, Hv, Hp. apply bool_decide_false. lia. }
    rewrite Hkeep, Nat.mod_small by lia.
    split_and!; try done; try congruence; lia.
Qed.

(** C3: NCycles(k), k > 0, from a just-reset state, over any invocations of
    run that return: with or without tick, with or without updates.  A
    cycle is a tick on an instance that holds a template once the updates of
    the invocation are in: each such invocation publishes exactly once, and
    no other invocation publishes.  cyclesSinceReset is the number of
    publications modulo k, and while that is not zero the template is kept;
    the invocation whose publication brings the count to k (to a multiple of
    k) ends with clear(): the instance is back in the just-reset state, and
    the cycle after it starts with isEmpty true and cyclesSinceReset = 0. *)
Theorem C3_ncycles_clears_after_k_cycles (k : nat) config subSpec (s : State)
    (calls : list (Inputs InputSpec)) :
  reachable config subSpec s ->
  isEmpty s = true ->
  mergedObjectTimespan_value (mConfig s) = NCycles ->
  mergedObjectTimespan_param (mConfig s) = Z.of_nat k ->
  (0 < k)%nat ->
  returned (forEach calls run s) = true ->
  mCyclesSinceReset (stateOf (forEach calls run s))
    = Z.of_nat (length (snapshots (outputOf (forEach calls run s))) mod k) ∧
  ((length (snapshots (outputOf (forEach calls run s))) mod k)%nat ≠ 0%nat ->
   isEmpty (stateOf (forEach calls run s)) = false) ∧
  (∀ pre last,
     calls = pre ++ [last] ->
     snapshots (outputOf (run last (stateOf (forEach pre run s)))) ≠ [] ->
     (length (snapshots (outputOf (forEach calls run s))) mod k)%nat = 0%nat ->
     stateOf (forEach calls run s) = s ∧
     isEmpty (stateOf (forEach calls run s)) = true ∧
     mCyclesSinceReset (stateOf (forEach calls run s)) = 0) ∧
  (∀ pre call post,
     calls = pre ++ call :: post ->
     length (snapshots (outputOf (run call (stateOf (forEach pre run s)))))
       = if timerValid call
            && negb (isEmpty (stateOf (ingest (updates call)
                                         (stateOf (forEach pre run s)))))
         then 1%nat else 0%nat).
Proof.
  intros Hr He Hv Hp Hk.
  pose proof (reachable_empty _ _ _ Hr He) as Hs.
  assert (Hinv0 : storeInv s) by by eapply reachable_storeInv.
  assert (Hn0 : mCyclesSinceReset s = 0) by (rewrite Hs; done).
  assert (Hmain : ∀ calls, returned (forEach calls run s) = true ->
    storeInv (stateOf (forEach calls run s)) ∧
    mConfig (stateOf (forEach calls run s)) = mConfig s ∧
    mSubSpec (stateOf (forEach calls run s)) = mSubSpec s ∧
    mCyclesSinceReset (stateOf (forEach calls run s))
      = Z.of_nat (length (snapshots (outputOf (forEach calls run s))) mod k) ∧
    ((length (snapshots (outputOf (forEach calls run s))) mod k)%nat ≠ 0%nat ->
     (mFirstObjectSerialized (stateOf (forEach calls run s))).1 ≠ ""%string) ∧
    (∀ pre last,
       calls = pre ++ [last] ->
       snapshots (outputOf (run last (stateOf (forEach pre run s)))) ≠ [] ->
       (length (snapshots (outputOf (forEach calls run s))) mod k)%nat = 0%nat ->
       stateOf (forEach calls run s) = s)).
  { clear calls. intros calls.
    induction calls as [|last pre IH] using rev_ind; intros Hret.
    { simpl. rewrite Nat.Div0.mod_0_l. split_and!; try done.
      all: intros pre last Hnil; by destruct pre. }
    revert Hret. rewrite forEach_app.
    destruct (forEach pre run s) as [[] s1 out1|] eqn:Hpre; [|done].
    rewrite forEach_one.
    rewrite returned_prepend, stateOf_prepend, outputOf_prepend, snapshots_app,
      length_app.
    intros Hret.
    destruct (IH eq_refl) as (Hi1 & Hc1 & Hs1 & Hn1 & Hne1 & _). simpl in *.
    set (n1 := length (snapshots out1)) in *.
    destruct (run_ncycles_step k (n1 mod k) last s1)
      as (m & Hm & Hle & Hi2 & Hc2 & Hs2 & Hn2 & Hne2 & Hclear & _);
      try done; try congruence.
    { by apply Nat.mod_upper_bound, Nat.neq_0_lt_0. }
    rewrite Hm. rewrite Nat.Div0.add_mod_idemp_l in Hn2, Hne2, Hclear.
    split_and!; try done; try congruence.
    intros pre' last' Heq Hpub Hzero.
    apply app_inj_tail in Heq as [<- <-].
    rewrite Hclear, Hc1, Hs1; [by rewrite Hs| |done].
    intros ->. apply Hpub. apply nil_length_inv.
    replace (stateOf (forEach pre run s)) with s1 by by rewrite Hpre.
    done. }
  intros Hret. destruct (Hmain calls Hret) as (_ & _ & _ & Hn & Hne & Hclear).
  split; [done|]. split.
  { intros Hnz. apply bool_decide_false. by apply Hne. }
  split.
  { intros pre last Heq Hpub Hzero.
    rewrite (Hclear pre last Heq Hpub Hzero). by split_and!. }
  intros pre call post Heq.
  rewrite (cons_middle call pre post), app_assoc in Heq. subst calls.
  apply forEach_returned_prefix in Hret.
  pose proof (forEach_returned_prefix _ _ _ _ Hret) as Hpre.
  destruct (Hmain pre Hpre) as (Hi1 & Hc1 & Hs1 & Hn1 & Hne1 & _).
  revert Hret. rewrite forEach_app.
  destruct (forEach pre run s) as [[] s1 out1|]; [|done].
  rewrite forEach_one, returned_prepend. simpl in *. intros Hret.
  destruct (run_ncycles_step k (length (snapshots out1) mod k) call s1)
    as (m & Hm & _ & _ & _ & _ & _ & _ & _ & Hcount);
    try congruence; try done.
  by apply Nat.mod_upper_bound, Nat.neq_0_lt_0.
Qed.


End MergerProperties.

(** ** The properties on the small instance *)

Abbreviation demoState := (State Z Z unit).
Abbreviation demoUpdateCache := (updateCache (TObject:=Z) (MergeInterface:=Z) demoExtract).
Abbreviation demoIngest := (ingest (TObject:=Z) (MergeInterface:=Z) demoExtract).
Abbreviation demoMergeCache := (mergeCache Z.add Z.add demoExtract).
Abbreviation demoPublish := (publish (InputSpec:=unit) demoSnapshot).
Abbreviation demoPublishCycle := (publishCycle Z.add Z.add demoExtract demoSnapshot).
Abbreviation demoRun := (run Z.add Z.add demoExtract demoSnapshot).
Abbreviation demoPerform := (perform Z.add Z.add demoExtract demoSnapshot).
Abbreviation demoPerformAll := (performAll Z.add Z.add demoExtract demoSnapshot).
Abbreviation demoReachable := (reachable Z.add Z.add demoExtract demoSnapshot).
Abbreviation demoInit := (initState (TObject:=Z) (MergeInterface:=Z) (InputSpec:=unit)).

(** The constructed state has no template, and endOfStream may find it so:
    the merge returns with nothing merged, and the publish that follows sends
    the five metrics.  A publish without template is not silent. *)
Lemma C1_counterexample :
  isEmpty (demoInit (policyNCycles 1) 0) = true ∧
  demoMergeCache (demoInit (policyNCycles 1) 0)
    = Done tt (demoInit (policyNCycles 1) 0) [] ∧
  outputOf (demoPublish (demoInit (policyNCycles 1) 0)) =
    [Metric "total_objects_merged" 0 RATE;
     Metric "objects_merged_since_last_publication" 0 NONE;
     Metric "total_updates_received" 0 RATE;
     Metric "updates_received_since_last_publication" 0 NONE;
     Metric "cycles_since_reset" 0 NONE] ∧
  outputOf (demoPublish (demoInit (policyNCycles 1) 0)) ≠ [].
Proof. split_and!; [reflexivity..|discriminate]. Qed.

Lemma C1_witness :
  let s := stateOf (demoPerform (OpRun (demoTick [demoA1; demoB1]))
                      (demoInit (policyNCycles 1) 0)) in
  demoMergeCache s = Done tt s [] ∧
  mMergedObject s = None ∧
  counters s = [0; 0; 0; 0; 0] ∧
  demoPublish s = Done tt s zeroMetrics.
Proof.
  apply (C1_publish_without_template Z Z unit Z.add Z.add demoExtract demoSnapshot
           (policyNCycles 1) 0).
  - apply reachable_step, reachable_init.
  - vm_compute. reflexivity.
Defined.

(** C2: the merge at a collection template of length 2.  With an empty
    cache mergeCache counts 1 object where the claim has (0 + 1) * 2 = 2;
    with one cache entry of length 2 it counts 1 + 2 = 3 where the claim has
    (1 + 1) * 2 = 4.  The cached collection is counted by its length, the
    template as one. *)
Lemma C2_collection_template_counted_as_one :
  let alone := stateOf (demoIngest [demoAVector] (demoInit (policyNCycles 1) 0)) in
  let s := stateOf (demoIngest [demoAVector; demoBVector]
                      (demoInit (policyNCycles 1) 0)) in
  demoExtract demoAVector = Some (VectorOfTObjectPtrs [1; 1]) ∧
  (mFirstObjectSerialized alone).2 = Some demoAVector ∧
  map_to_list (mCache alone) = [] ∧
  mObjectsMerged alone = 0 ∧
  returned (demoMergeCache alone) = true ∧
  mObjectsMerged (stateOf (demoMergeCache alone)) = 1 ∧
  mObjectsMerged (stateOf (demoMergeCache alone)) ≠ (0 + 1) * 2 ∧
  (mFirstObjectSerialized s).2 = Some demoAVector ∧
  map_to_list (mCache s) = [("B/MO/0"%string, VectorOfTObjectPtrs [1; 1])] ∧
  mObjectsMerged s = 0 ∧
  returned (demoMergeCache s) = true ∧
  mObjectsMerged (stateOf (demoMergeCache s)) = 3 ∧
  mObjectsMerged (stateOf (demoMergeCache s)) ≠ (1 + 1) * 2.
Proof. vm_compute. split_and!; try reflexivity; discriminate. Qed.

Lemma C3_witness :
  let s := demoInit (policyNCycles 2) 0 in
  let calls := [demoNoTick [demoA1]; demoNoTick [demoB1]; demoTick [];
                demoNoTick [demoA5]; demoTick [demoC1]] in
  mCyclesSinceReset (stateOf (forEach calls demoRun s))
    = Z.of_nat (length (snapshots (outputOf (forEach calls demoRun s))) mod 2) ∧
  ((length (snapshots (outputOf (forEach calls demoRun s))) mod 2)%nat ≠ 0%nat ->
   isEmpty (stateOf (forEach calls demoRun s)) = false) ∧
  (∀ pre last,
     calls = pre ++ [last] ->
     snapshots (outputOf (demoRun last (stateOf (forEach pre demoRun s)))) ≠ [] ->
     (length (snapshots (outputOf (forEach calls demoRun s))) mod 2)%nat = 0%nat ->
     stateOf (forEach calls demoRun s) = s ∧
     isEmpty (stateOf (forEach calls demoRun s)) = true ∧
     mCyclesSinceReset (stateOf (forEach calls demoRun s)) = 0) ∧
  (∀ pre call post,
     calls = pre ++ call :: post ->
     length (snapshots (outputOf (demoRun call (stateOf (forEach pre demoRun s)))))
       = if timerValid call
            && negb (isEmpty (stateOf (demoIngest (updates call)
                                         (stateOf (forEach pre demoRun s)))))
         then 1%nat else 0%nat).
Proof.
  apply (C3_ncycles_clears_after_k_cycles Z Z unit Z.add Z.add demoExtract
           demoSnapshot 2 (policyNCycles 2) 0).
  - apply reachable_init.
  - reflexivity.
  - reflexivity.
  - reflexivity.
  - lia.
  - vm_compute. reflexivity.
Defined.

Lemma C4_witness :
  let s := stateOf (demoPerform (OpRun (demoTick [demoA5]))
                      (demoInit (policyNCycles 1) 0)) in
  ∃ s1 s2 : demoState,
    demoIngest [demoA1; demoB1; demoC1] s = Done tt s1 [] ∧
    mUpdatesReceived s1 = 3 ∧
    (modify (λ s, set_mCyclesSinceReset (mCyclesSinceReset s + 1) s);;
     demoMergeCache) s1 = Done tt s2 [] ∧
    mObjectsMerged s2 = 3 ∧
    mUpdatesReceived s2 = 3.
Proof.
  apply (C4_one_update_per_source Z Z unit Z.add Z.add demoExtract demoSnapshot
           (policyNCycles 1) 0 _ KTObject [demoA1; demoB1; demoC1]).
  - apply reachable_step, reachable_init.
  - vm_compute. reflexivity.
  - discriminate.
  - compute_done.
  - discriminate.
  - repeat constructor.
Defined.

Lemma C6_witness :
  let s := stateOf (demoUpdateCache demoA1 (demoInit (policyNCycles 1) 0)) in
  let s2 := stateOf (demoUpdateCache demoB5 (stateOf (demoUpdateCache demoB1 s))) in
  s2 = stateOf (demoUpdateCache demoB5 s) ∧
  (mFirstObjectSerialized s2 = (sourceID demoB5, Some demoB5) ∨
   (mCache s2 !! sourceID demoB5 = demoExtract demoB5 ∧
    is_Some (demoExtract demoB5))) ∧
  demoMergeCache s2 = demoMergeCache (stateOf (demoUpdateCache demoB5 s)).
Proof.
  apply (C6_last_write_wins Z Z unit Z.add Z.add demoExtract).
  - reflexivity.
  - vm_compute. reflexivity.
Defined.

Lemma C7_witness :
  let s := stateOf (demoPerform (OpRun (demoNoTick [demoA1; demoB1; demoA5]))
                      (demoInit (policyNCycles 1) 0)) in
  mCache s !! (mFirstObjectSerialized s).1 = None.
Proof.
  apply (C7_template_source_not_cached Z Z unit Z.add Z.add demoExtract
           demoSnapshot (policyNCycles 1) 0).
  apply reachable_step, reachable_init.
Defined.

(** The first update since the reset does not decode.  updateCache stores it
    as the template and returns: nothing is raised to its caller and the
    members have changed.  The next run, with a valid update from another
    source and a tick, throws in the merge and publishes nothing. *)
Lemma C8_counterexample :
  let s0 := demoInit (policyNCycles 1) 0 in
  let s1 := stateOf (demoUpdateCache demoABad s0) in
  demoExtract demoABad = None ∧
  returned (demoUpdateCache demoABad s0) = true ∧
  mFirstObjectSerialized s1 = ("A/MO/0"%string, Some demoABad) ∧
  s1 ≠ s0 ∧
  demoExtract demoB1 = Some (TObjectPtr 1) ∧
  returned (demoRun (demoTick [demoB1]) s1) = false ∧
  outputOf (demoRun (demoTick [demoB1]) s1) = [].
Proof. vm_compute. split_and!; try reflexivity. discriminate. Qed.

Lemma C8_witness :
  let s0 := demoInit (policyNCycles 1) 0 in
  let s := stateOf (demoUpdateCache demoA1 s0) in
  (∃ s', demoUpdateCache demoABad s0 = Done tt s' [] ∧
     mFirstObjectSerialized s' = (sourceID demoABad, Some demoABad) ∧
     demoMergeCache s' = Raised DecodeFailure s' [] ∧
     demoPublishCycle s' =
       Raised DecodeFailure
         (set_mCyclesSinceReset (mCyclesSinceReset s' + 1) s') []) ∧
  (demoUpdateCache demoBBad s = Raised DecodeFailure s [] ∧
   ∀ rest tick,
     demoRun {| updates := demoBBad :: rest; timerValid := tick |} s
       = Raised DecodeFailure s []).
Proof.
  split.
  - exact (C8_undecodable_payload Z Z unit Z.add Z.add demoExtract demoSnapshot
             (demoInit (policyNCycles 1) 0) demoABad eq_refl).
  - exact (C8_undecodable_payload Z Z unit Z.add Z.add demoExtract demoSnapshot
             (stateOf (demoUpdateCache demoA1 (demoInit (policyNCycles 1) 0)))
             demoBBad eq_refl).
Defined.

(** An instance that survives exceptions.  The first run receives a TObject
    from A and a MergeInterface object from B: the merge throws after the
    cycle was counted.  B then sends a TObject and the second run publishes,
    with cyclesSinceReset = 2: LastDifference clears, NCycles(1) does not,
    and never will.  A third tick publishes again under NCycles(1) only. *)
Lemma C9_counterexample :
  let ops := [OpRun (demoTick [demoA1; demoBInterface]);
              OpRun (demoTick [demoB1]);
              OpRun (demoTick [])] in
  let underLD := demoPerformAll ops (demoInit policyLastDifference 0) in
  let underN1 := demoPerformAll ops (demoInit (policyNCycles 1) 0) in
  returned (demoRun (demoTick [demoA1; demoBInterface])
              (demoInit policyLastDifference 0)) = false ∧
  counters underLD.1 = [0; 0; 0; 0; 0] ∧
  counters underN1.1 = [3; 0; 5; 0; 3] ∧
  length (snapshots underLD.2) = 1%nat ∧
  length (snapshots underN1.2) = 2%nat ∧
  underLD.2 ≠ underN1.2.
Proof. vm_compute. split_and!; [reflexivity..|discriminate]. Qed.

Lemma C9_witness :
  let s := stateOf (demoIngest [demoA1]
                      (demoInit policyLastDifference 0)) in
  stateOf (demoRun (demoTick [demoB1]) s)
    = initState (mConfig s) (mSubSpec s).
Proof.
  apply (proj1 (C9_last_difference_as_ncycles_1 Z Z unit Z.add Z.add demoExtract
                  demoSnapshot 0 0 [])).
  - reflexivity.
  - vm_compute. reflexivity.
  - vm_compute. discriminate.
Defined.

Lemma C10_witness :
  let s := stateOf (demoMergeCache
                      (stateOf (demoIngest [demoA1; demoB1]
                                  (demoInit (policyNCycles 1) 0)))) in
  publish demoFailingSnapshot s =
    Raised (RuntimeError "mMergedObjectIntegral' variant has no value.") s [].
Proof.
  apply (C10_publish_failure_changes_nothing Z Z unit demoFailingSnapshot _
           (TObjectPtr 2)).
  - vm_compute. reflexivity.
  - reflexivity.
Defined.

(** ** The further properties on the small instance *)

Abbreviation demoEndOfStream :=
  (endOfStream Z.add Z.add demoExtract demoSnapshot).


Lemma X2_witness :
  returned (demoRun (demoTick [demoA1]) (demoInit (policyNCycles 2) 0)) = true ∧
  timerValid (demoTick [demoA1]) = true ∧
  (isEmpty (demoInit (policyNCycles 2) 0) = false ∨
   updates (demoTick [demoA1]) ≠ []).
Proof.
  apply (X2_run_output_only_when_published Z Z unit Z.add Z.add demoExtract
           demoSnapshot).
  vm_compute. discriminate.
Defined.

Lemma X3_witness :
  let s := stateOf (demoPerform (OpRun (demoNoTick [demoA1; demoB1]))
                      (demoInit policyLastDifference 0)) in
  beyondEndOfStream (stateOf (demoEndOfStream s)) = beyondEndOfStream s ∧
  isEmpty (stateOf (demoEndOfStream s)) = false ∧
  ∃ merged objects,
    mMergedObject (stateOf (demoEndOfStream s)) = Some merged ∧
    mObjectsMerged s + 1 <= objects ∧
    outputOf (demoEndOfStream s)
      = publication s merged objects (mUpdatesReceived s) (mCyclesSinceReset s).
Proof.
  apply (X3_endOfStream_publishes_and_keeps Z Z unit Z.add Z.add demoExtract
           demoSnapshot policyLastDifference 0).
  - apply reachable_step, reachable_init.
  - vm_compute. reflexivity.
  - vm_compute. reflexivity.
Defined.

Lemma X4_witness :
  let s := stateOf (demoUpdateCache demoA1 (demoInit (policyNCycles 2) 0)) in
  mCache (stateOf (demoIngest [demoB1; demoC1] s)) !! "A/MO/0"%string
    = mCache s !! "A/MO/0"%string ∧
  ((mFirstObjectSerialized s).1 = "A/MO/0"%string -> "A/MO/0"%string ≠ ""%string ->
   mFirstObjectSerialized (stateOf (demoIngest [demoB1; demoC1] s))
     = mFirstObjectSerialized s).
Proof.
  apply (X4_ingest_leaves_other_sources Z Z unit demoExtract).
  compute_done.
Defined.

Lemma X5_witness :
  let s := demoInit (policyNCycles 2) 0 in
  sources (stateOf (demoIngest [demoA1; demoB1; demoA5] s))
    = sources s ∪ list_to_set (sourceID <$> [demoA1; demoB1; demoA5]) ∧
  mUpdatesReceived (stateOf (demoIngest [demoA1; demoB1; demoA5] s))
    = mUpdatesReceived s + Z.of_nat (length [demoA1; demoB1; demoA5]).
Proof.
  apply (X5_ingest_tracks_sources Z Z unit demoExtract).
  vm_compute. reflexivity.
Defined.

Lemma X6_witness :
  let s := stateOf (demoIngest [demoA1; demoB1; demoC1]
                      (demoInit (policyNCycles 2) 0)) in
  length (tobjectsOf (map_to_list (mCache s))) = size (mCache s) ∧
  demoMergeCache s =
    Done tt
      (set_mObjectsMerged (mObjectsMerged s + 1 + Z.of_nat (size (mCache s)))
         (set_mMergedObject
            (Some (TObjectPtr
                     (foldl Z.add 1 (tobjectsOf (map_to_list (mCache s))))))
            s)) [].
Proof.
  apply (X6_merge_folds_the_cache Z Z unit Z.add Z.add demoExtract _ demoA1 1).
  - reflexivity.
  - reflexivity.
  - apply map_Forall_to_list. vm_compute. repeat constructor.
Defined.

Lemma X8_witness :
  let s := stateOf (demoIngest [demoA1; demoBInterface]
                      (demoInit (policyNCycles 2) 0)) in
  (∃ e s', demoMergeCache s = Raised e s' [] ∧
     (e = BadVariantAccess ∨
      (kindOf (TObjectPtr 1 : @Object Z Z) = KVector ∧ e = LengthMismatch))) ∧
  returned (demoPublishCycle s) = false ∧
  outputOf (demoPublishCycle s) = [].
Proof.
  apply (X8_kind_mismatch_throws Z Z unit Z.add Z.add demoExtract demoSnapshot
           _ demoA1 (TObjectPtr 1) "B/MO/0"%string (MergeInterfacePtr 1)).
  - reflexivity.
  - reflexivity.
  - vm_compute. reflexivity.
  - discriminate.
Defined.

Lemma X9_witness :
  let s := stateOf (demoIngest [demoA1; demoB5; demoC1]
                      (demoInit (policyNCycles 2) 0)) in
  demoMergeCache s =
    forEach (reverse (map_to_list (mCache s)))
      (mergeTObjectEntry (MergeInterface:=Z) (InputSpec:=unit) Z.add)
      (set_mObjectsMerged (mObjectsMerged s + 1)
         (set_mMergedObject (Some (TObjectPtr 1)) s)).
Proof.
  apply (X9_merge_order_irrelevant Z Z unit Z.add Z.add demoExtract _ demoA1 1).
  - intros a b c. lia.
  - reflexivity.
  - reflexivity.
  - apply map_Forall_to_list. vm_compute. repeat constructor.
  - apply reverse_Permutation.
Defined.

Lemma X10_witness :
  let s := stateOf (demoRun (demoTick [demoA1; demoBInterface])
                      (demoInit (policyNCycles 1) 0)) in
  mCyclesSinceReset (stateOf (demoRun (demoTick [demoB1]) s))
    = mCyclesSinceReset s + 1 ∧
  isEmpty (stateOf (demoRun (demoTick [demoB1]) s)) = false ∧
  mConfig (stateOf (demoRun (demoTick [demoB1]) s)) = mConfig s.
Proof.
  apply (X10_ncycles_past_parameter_keeps_history Z Z unit Z.add Z.add demoExtract
           demoSnapshot).
  - reflexivity.
  - vm_compute. discriminate.
  - vm_compute. reflexivity.
  - vm_compute. discriminate.
Defined.

Lemma X11_witness :
  let s := stateOf (demoUpdateCache demoA1 (demoInit (policyNCycles 1) 0)) in
  (mFirstObjectSerialized (stateOf (demoPerform (OpRun (demoTick [demoB1])) s))).1
    = (mFirstObjectSerialized s).1 ∨
  stateOf (demoPerform (OpRun (demoTick [demoB1])) s)
    = initState (mConfig s) (mSubSpec s).
Proof.
  apply (X11_template_source_until_clear Z Z unit Z.add Z.add demoExtract
           demoSnapshot).
  vm_compute. discriminate.
Defined.
